(** * The Oracle: database RPC worker and its client

    A shallow embedding of [src/piwheels/master/the_oracle.py]: the
    [TheOracle] task, which answers database requests arriving on a
    request/reply queue, and [DbClient], the stub that callers use to talk
    to it.

    Python objects are modelled as values of an inductive type, exceptions
    as a class with its arguments, and the two classes as functions in a
    state-and-exception monad over the object's attributes.  The
    collaborators that the module imports but does not define (the
    database, the interpreter's built-ins) are interfaces, so that every
    statement holds for any implementation of them. *)

From Stdlib Require Import ZArith List String Ascii Bool Lia.
From Stdlib Require Import DecimalString DecimalZ.
Import ListNotations.
Local Open Scope string_scope.
Local Open Scope list_scope.

Set Implicit Arguments.

(** ** Python values *)

#[warnings="-register-all"]
Inductive value : Type :=
| VNone
| VBool (b : bool)
| VInt (z : Z)
| VStr (s : string)
| VBytes (s : string)
| VList (l : list value)
| VTuple (l : list value)
| VSet (l : list value)
| VDict (l : list (value * value))
| VNamedTuple (typename : string) (fields : list string) (vals : list value)
| VObject (cls : string) (attrs : list (string * value)).

Definition type_name (v : value) : string :=
  match v with
  | VNone => "NoneType"
  | VBool _ => "bool"
  | VInt _ => "int"
  | VStr _ => "str"
  | VBytes _ => "bytes"
  | VList _ => "list"
  | VTuple _ => "tuple"
  | VSet _ => "set"
  | VDict _ => "dict"
  | VNamedTuple n _ _ => n
  | VObject c _ => c
  end.

(** [hash(v)] succeeds: lists, sets and dicts are unhashable, a tuple is
    hashable when its items are. *)
Fixpoint hashable (v : value) : bool :=
  match v with
  | VList _ | VSet _ | VDict _ => false
  | VTuple l => forallb hashable l
  | VNamedTuple _ _ l => forallb hashable l
  | _ => true
  end.

(** ** Exceptions

    Only classes below [Exception] are modelled; the exits that Python
    signals through [BaseException] ([KeyboardInterrupt], [SystemExit]) end
    the process and are not failures of a request.  An exception object is
    its class and the arguments it was made with.  [UserDefined] is a
    subclass that inherits [__str__]; [Overriding] is a subclass that
    defines its own, given as a function of the arguments. *)

Inductive exc_class : Type :=
| Exception_
| KeyError
| TypeError
| ValueError
| AttributeError
| IOError                                   (* alias of OSError *)
| Again                                     (* zmq.error.Again, EAGAIN *)
| UserDefined (name : string) (base : exc_class)
| Overriding (name : string) (base : exc_class)
             (str_method : list value -> string).

Fixpoint is_IOError (c : exc_class) : bool :=
  match c with
  | IOError => true
  | UserDefined _ b => is_IOError b
  | Overriding _ b _ => is_IOError b
  | _ => false
  end.

Fixpoint is_KeyError (c : exc_class) : bool :=
  match c with
  | KeyError => true
  | UserDefined _ b => is_KeyError b
  | Overriding _ b _ => is_KeyError b
  | _ => false
  end.

Record exn : Type := MkExn { exn_class : exc_class; exn_args : list value }.

(** The [__str__] that a class has, found along its bases: that of
    [BaseException], of [KeyError], of [OSError], or one of its own. *)
Inductive str_rule : Type :=
| StrBase
| StrKeyError
| StrOSError
| StrOwn (str_method : list value -> string).

Fixpoint str_method_of (c : exc_class) : str_rule :=
  match c with
  | KeyError => StrKeyError
  | IOError => StrOSError
  | UserDefined _ b => str_method_of b
  | Overriding _ _ f => StrOwn f
  | Exception_ | TypeError | ValueError | AttributeError | Again => StrBase
  end.

Inductive outcome (A : Type) : Type :=
| Return (a : A)
| Raise (e : exn).
Arguments Return {A} a.
Arguments Raise {A} e.

(** Failures that the interpreter itself raises.  Their wording differs
    between Python versions, so the text is left to [interp_text]. *)
Inductive interp_error : Type :=
| BadArity (fname : string) (expected given : nat)
| StarNotIterable (fname : string) (v : value)
| NotIterable (v : value)
| Unhashable (v : value)
| UnpackCount (expected got : nat)
| NoAttribute (v : value) (attr : string)
| BadFieldName (field : string)
| DuplicateField (field : string)
| KeywordNotString (k : value)
| UnexpectedKeyword (k : string)
| MissingArguments (fields : list string).

(** The built-ins the module relies on. *)
Class Runtime : Type := {
  py_repr : value -> string;                       (* repr(v) *)
  interp_text : interp_error -> string;
  valid_identifier : string -> bool;               (* isidentifier() and not iskeyword() *)
  set_of : list value -> value                     (* set of hashable items *)
}.

(** The store: [Database(dsn)] and one method per operation.  A method
    returns its result together with its arguments as the call leaves them
    (Python passes objects by reference, and [log_build] stamps the build it
    is given), or raises. *)
Class Database : Type := {
  conn : Type;
  connect : value -> outcome conn;
  db_call : string -> list value -> conn -> outcome (value * list value) * conn
}.

(** ** State and exception monad

    A raised exception keeps the state reached so far: Python does not roll
    back attribute updates when an exception unwinds. *)

Definition M (S A : Type) : Type := S -> outcome A * S.

Definition ret {S A} (a : A) : M S A := fun s => (Return a, s).

Definition raise {S A} (e : exn) : M S A := fun s => (Raise e, s).

Definition bind {S A B} (c : M S A) (k : A -> M S B) : M S B :=
  fun s => match c s with
           | (Return a, s') => k a s'
           | (Raise e, s') => (Raise e, s')
           end.

Definition lift {S A} (r : outcome A) : M S A := fun s => (r, s).

Definition modify {S} (f : S -> S) : M S unit := fun s => (Return tt, f s).

Declare Scope py_scope.
Notation "x <- c ;; k" := (bind c (fun x => k))
  (at level 61, c at next level, right associativity) : py_scope.
Notation "c ;;; k" := (bind c (fun _ => k))
  (at level 61, right associativity) : py_scope.
Local Open Scope py_scope.

Section Interpreter.
Context {RT : Runtime}.

(** [str(v)]: a string is itself; the other kinds of value modelled here
    have no [__str__] of their own, so [str] is [repr]. *)
Definition py_str (v : value) : string :=
  match v with
  | VStr s => s
  | _ => py_repr v
  end.

(** [BaseException.__str__] *)
Definition base_str (args : list value) : string :=
  match args with
  | [] => ""
  | [a] => py_str a
  | _ => py_repr (VTuple args)
  end.

Definition is_None (v : value) : bool :=
  match v with
  | VNone => true
  | _ => false
  end.

(** [OSError.__str__] on the arguments the exception was made with (POSIX).
    Made with two to five arguments, the first two are errno and strerror,
    the third a file name and the fifth a second file name, a file name
    that is [None] counting as absent; made with any other number of
    arguments, the exception is described as [BaseException] does. *)
Definition oserror_str (args : list value) : option string :=
  let errno_text errno strerror :=
    ("[Errno " ++ py_str errno ++ "] " ++ py_str strerror)%string in
  match args with
  | [errno; strerror] => Some (errno_text errno strerror)
  | [errno; strerror; filename] | [errno; strerror; filename; _] =>
      Some (if is_None filename then errno_text errno strerror
            else (errno_text errno strerror ++ ": "
                  ++ py_repr filename)%string)
  | [errno; strerror; filename; _; filename2] =>
      Some (if is_None filename then errno_text errno strerror
            else if is_None filename2 then
              (errno_text errno strerror ++ ": " ++ py_repr filename)%string
            else
              (errno_text errno strerror ++ ": " ++ py_repr filename
               ++ " -> " ++ py_repr filename2)%string)
  | _ => None
  end.

(** [str(exc)], by the [__str__] of the class of [exc]. *)
Definition str_exn (e : exn) : string :=
  match str_method_of (exn_class e) with
  | StrOwn f => f (exn_args e)
  | StrKeyError =>
      match exn_args e with
      | [a] => py_repr a
      | args => base_str args
      end
  | StrOSError =>
      match oserror_str (exn_args e) with
      | Some text => text
      | None => base_str (exn_args e)
      end
  | StrBase => base_str (exn_args e)
  end.

Definition interp_exn (c : exc_class) (ie : interp_error) : exn :=
  MkExn c [VStr (interp_text ie)].

Definition chars (s : string) : list value :=
  map (fun c => VStr (String c EmptyString)) (list_ascii_of_string s).

Definition octets (s : string) : list value :=
  map (fun c => VInt (Z.of_nat (nat_of_ascii c))) (list_ascii_of_string s).

(** The items that iterating over [v] yields. *)
Definition iterate (v : value) : option (list value) :=
  match v with
  | VList l | VTuple l | VSet l => Some l
  | VNamedTuple _ _ l => Some l
  | VDict l => Some (map fst l)
  | VStr s => Some (chars s)
  | VBytes s => Some (octets s)
  | VNone | VBool _ | VInt _ | VObject _ _ => None
  end.

(** [a, b, c = v] *)
Definition unpack3 (v : list value) : outcome (value * value * value) :=
  match v with
  | [a; b; c] => Return (a, b, c)
  | _ => Raise (interp_exn ValueError (UnpackCount 3 (List.length v)))
  end.

(** [list(v)] and [set(v)] *)
Definition py_list (v : value) : outcome value :=
  match iterate v with
  | Some l => Return (VList l)
  | None => Raise (interp_exn TypeError (NotIterable v))
  end.

Definition py_set (v : value) : outcome value :=
  match iterate v with
  | Some l =>
      match find (fun x => negb (hashable x)) l with
      | Some x => Raise (interp_exn TypeError (Unhashable x))
      | None => Return (set_of l)
      end
  | None => Raise (interp_exn TypeError (NotIterable v))
  end.

(** [v.items()] *)
Definition py_items (v : value) : outcome value :=
  match v with
  | VDict l => Return (VList (map (fun kv => VTuple [fst kv; snd kv]) l))
  | _ => Raise (interp_exn AttributeError (NoAttribute v "items"))
  end.

(** [v.attr] *)
Fixpoint assoc {A} (k : string) (l : list (string * A)) : option A :=
  match l with
  | [] => None
  | (k', a) :: l' => if String.eqb k k' then Some a else assoc k l'
  end.

Definition getattr (v : value) (attr : string) : outcome value :=
  match v with
  | VObject _ attrs =>
      match assoc attr attrs with
      | Some a => Return a
      | None => Raise (interp_exn AttributeError (NoAttribute v attr))
      end
  | VNamedTuple _ fields vals =>
      match assoc attr (combine fields vals) with
      | Some a => Return a
      | None => Raise (interp_exn AttributeError (NoAttribute v attr))
      end
  | _ => Raise (interp_exn AttributeError (NoAttribute v attr))
  end.

End Interpreter.

(** ** The queue and the logger

    What a socket of the transport layer sends, and the record of what
    happened on it, oldest event first. *)

Inductive wire : Type :=
| Raw (frame : string)                       (* send(b'...') *)
| Msg (msg data : value)                     (* send_msg(msg, data) *)
| AddrMsg (address msg data : value).        (* send_addr_msg(address, msg, data) *)

Inductive qevent : Type :=
| Create                                     (* ctx.socket(zmq.REQ, ...) *)
| SetHwm (hwm : Z)                           (* socket.hwm = n *)
| Connect (address : value)                  (* socket.connect(address) *)
| Register (callback : string)               (* self.register(socket, callback) *)
| Recv (parts : outcome (list value))        (* recv_multipart / recv_msg *)
| Send (m : wire)
| Refused (m : wire).                        (* a non-blocking send that raised EAGAIN *)

Inductive log_entry : Type :=
| LogException (e : exn)                     (* logger.exception(e) *)
| LogError (fmt : string) (arg : value).     (* logger.error(fmt, arg) *)

(** The constants of [piwheels.const] that the module reads. *)
Class Const : Type := {
  ORACLE_QUEUE : value
}.

(** ** TheOracle *)

Section TheOracle.
Context {RT : Runtime} {DB : Database} {CONST : Const}.

(** The attributes of a [TheOracle] instance. *)
Record worker : Type := MkWorker {
  name : string;
  db : conn;
  db_queue : list qevent;
  logger : list log_entry
}.

Definition W : Type -> Type := M worker.

Definition log (entry : log_entry) : W unit :=
  modify (fun w => MkWorker (name w) (db w) (db_queue w) (logger w ++ [entry])).

Definition queue_event (ev : qevent) : W unit :=
  modify (fun w => MkWorker (name w) (db w) (db_queue w ++ [ev]) (logger w)).

(** A call of a method of [self.db]: the result and the arguments after the call. *)
Definition db_invoke (method : string) (args : list value)
  : W (value * list value) :=
  fun w =>
    let (r, c) := db_call method args (db w) in
    (r, MkWorker (name w) c (db_queue w) (logger w)).

Definition call_db (method : string) (args : list value) : W value :=
  r <- db_invoke method args ;; ret (fst r).

Definition arity_error {A} (fname : string) (expected : nat)
  (args : list value) : W A :=
  raise (interp_exn TypeError (BadArity fname expected (List.length args))).

(** A bound method called with positional arguments. *)
Definition handler : Type := list value -> W value.

Definition do_allpkgs : handler := fun args =>
  match args with
  | [] => call_db "get_all_packages" []
  | _ => arity_error "do_allpkgs" 0 args
  end.

Definition do_allvers : handler := fun args =>
  match args with
  | [] => call_db "get_all_package_versions" []
  | _ => arity_error "do_allvers" 0 args
  end.

Definition do_newpkg : handler := fun args =>
  match args with
  | [package; skip] => call_db "add_new_package" [package]
  | _ => arity_error "do_newpkg" 2 args
  end.

Definition do_newver : handler := fun args =>
  match args with
  | [package; version; released; skip] =>
      call_db "add_new_package_version" [package; version; released; skip]
  | _ => arity_error "do_newver" 4 args
  end.

Definition do_skippkg : handler := fun args =>
  match args with
  | [package; reason] =>
      call_db "skip_package" [package; reason] ;;; ret VNone
  | _ => arity_error "do_skippkg" 2 args
  end.

Definition do_skipver : handler := fun args =>
  match args with
  | [package; version; reason] =>
      call_db "skip_package_version" [package; version; reason] ;;; ret VNone
  | _ => arity_error "do_skipver" 3 args
  end.

Definition do_logdownload : handler := fun args =>
  match args with
  | [download] => call_db "log_download" [download] ;;; ret VNone
  | _ => arity_error "do_logdownload" 1 args
  end.

Definition do_logbuild : handler := fun args =>
  match args with
  | [build] =>
      r <- db_invoke "log_build" [build] ;;
      lift (getattr (hd build (snd r)) "build_id")
  | _ => arity_error "do_logbuild" 1 args
  end.

Definition do_delbuild : handler := fun args =>
  match args with
  | [package; version] =>
      call_db "delete_build" [package; version] ;;; ret VNone
  | _ => arity_error "do_delbuild" 2 args
  end.

Definition do_pkgfiles : handler := fun args =>
  match args with
  | [package] => r <- call_db "get_package_files" [package] ;; lift (py_list r)
  | _ => arity_error "do_pkgfiles" 1 args
  end.

Definition do_projvers : handler := fun args =>
  match args with
  | [package] => r <- call_db "get_project_versions" [package] ;; lift (py_list r)
  | _ => arity_error "do_projvers" 1 args
  end.

Definition do_projfiles : handler := fun args =>
  match args with
  | [package] => r <- call_db "get_project_files" [package] ;; lift (py_list r)
  | _ => arity_error "do_projfiles" 1 args
  end.

Definition do_verfiles : handler := fun args =>
  match args with
  | [package; version] =>
      r <- call_db "get_version_files" [package; version] ;; lift (py_set r)
  | _ => arity_error "do_verfiles" 2 args
  end.

Definition do_getskip : handler := fun args =>
  match args with
  | [package; version] => call_db "get_version_skip" [package; version]
  | _ => arity_error "do_getskip" 2 args
  end.

Definition do_pkgexists : handler := fun args =>
  match args with
  | [package; version] => call_db "test_package_version" [package; version]
  | _ => arity_error "do_pkgexists" 2 args
  end.

Definition do_getabis : handler := fun args =>
  match args with
  | [] => call_db "get_build_abis" []
  | _ => arity_error "do_getabis" 0 args
  end.

Definition do_getpypi : handler := fun args =>
  match args with
  | [] => call_db "get_pypi_serial" []
  | _ => arity_error "do_getpypi" 0 args
  end.

Definition do_setpypi : handler := fun args =>
  match args with
  | [serial] => call_db "set_pypi_serial" [serial] ;;; ret VNone
  | _ => arity_error "do_setpypi" 1 args
  end.

Definition do_getstats : handler := fun args =>
  match args with
  | [] => r <- call_db "get_statistics" [] ;; lift (py_items r)
  | _ => arity_error "do_getstats" 0 args
  end.

Definition do_getdl : handler := fun args =>
  match args with
  | [] => call_db "get_downloads_recent" []
  | _ => arity_error "do_getdl" 0 args
  end.

Definition do_filedeps : handler := fun args =>
  match args with
  | [filename] => call_db "get_file_dependencies" [filename]
  | _ => arity_error "do_filedeps" 1 args
  end.

(** The dictionary literal of [handle_db_request]. *)
Definition handlers : list (string * (string * handler)) :=
  [ ("ALLPKGS", ("do_allpkgs", do_allpkgs));
    ("ALLVERS", ("do_allvers", do_allvers));
    ("NEWPKG", ("do_newpkg", do_newpkg));
    ("NEWVER", ("do_newver", do_newver));
    ("SKIPPKG", ("do_skippkg", do_skippkg));
    ("SKIPVER", ("do_skipver", do_skipver));
    ("LOGDOWNLOAD", ("do_logdownload", do_logdownload));
    ("LOGBUILD", ("do_logbuild", do_logbuild));
    ("DELBUILD", ("do_delbuild", do_delbuild));
    ("PKGFILES", ("do_pkgfiles", do_pkgfiles));
    ("PROJVERS", ("do_projvers", do_projvers));
    ("PROJFILES", ("do_projfiles", do_projfiles));
    ("VERFILES", ("do_verfiles", do_verfiles));
    ("GETSKIP", ("do_getskip", do_getskip));
    ("PKGEXISTS", ("do_pkgexists", do_pkgexists));
    ("GETABIS", ("do_getabis", do_getabis));
    ("GETPYPI", ("do_getpypi", do_getpypi));
    ("SETPYPI", ("do_setpypi", do_setpypi));
    ("GETSTATS", ("do_getstats", do_getstats));
    ("GETDL", ("do_getdl", do_getdl));
    ("FILEDEPS", ("do_filedeps", do_filedeps)) ].

(** [{...}[msg]]: the keys are [str], so only a [str] can be found; an
    unhashable subscript is a [TypeError], any other miss a [KeyError]. *)
Definition lookup_handler (msg : value) : W (string * handler) :=
  if hashable msg then
    match msg with
    | VStr s =>
        match assoc s handlers with
        | Some h => ret h
        | None => raise (MkExn KeyError [msg])
        end
    | _ => raise (MkExn KeyError [msg])
    end
  else raise (interp_exn TypeError (Unhashable msg)).

(** The call [handler] applied to the unpacked [data] (star-arguments). *)
Definition call_star (h : string * handler) (data : value) : W value :=
  match iterate data with
  | Some args => snd h args
  | None => raise (interp_exn TypeError (StarNotIterable (fst h) data))
  end.

Definition send_addr_msg (address msg data : value) : W unit :=
  queue_event (Send (AddrMsg address msg data)).

(** [handle_db_request(self, queue)], given what [queue.recv_multipart()]
    does on this call: return the parts of a message, or raise. *)
Definition handle_db_request (received : outcome (list value)) : W unit :=
  fun w0 =>
    let w := snd (queue_event (Recv received) w0) in
    match match received with
          | Return parts => unpack3 parts
          | Raise e => Raise e
          end with
    | Raise e =>
        if is_IOError (exn_class e) then log (LogException e) w
        else (Raise e, w)
    | Return (address, msg, data) =>
        let (r, w1) := (h <- lookup_handler msg ;; call_star h data) w in
        let '(msg', data', w2) :=
          match r with
          | Raise exc =>
              (VStr "ERROR", VStr (str_exn exc),
               snd (log (LogError "Error handling db request: %s" msg) w1))
          | Return result => (VStr "OK", result, w1)
          end in
        send_addr_msg address msg' data' w2
    end.

(** The task's loop: one call of the handler per readable event, until an
    exception escapes it. *)
Fixpoint serve (events : list (outcome (list value))) : W unit :=
  match events with
  | [] => ret tt
  | ev :: rest => handle_db_request ev ;;; serve rest
  end.

(** The reply that the handler makes of what the operation did. *)
Definition reply_of (r : outcome value) : value * value :=
  match r with
  | Return result => (VStr "OK", result)
  | Raise exc => (VStr "ERROR", VStr (str_exn exc))
  end.

(** A computation of the worker that leaves everything but the store
    connection as it found it. *)
Definition frames {A} (c : W A) : Prop :=
  forall w, name (snd (c w)) = name w /\
            db_queue (snd (c w)) = db_queue w /\
            logger (snd (c w)) = logger w.

(** The class attributes [TheOracle.name] and [TheOracle.instance]. *)
Record TheOracle_class : Type := MkClass {
  cls_name : string;
  instance : Z
}.

Definition TheOracle : TheOracle_class := MkClass "master.the_oracle" 0.

(** ['%d' % n] *)
Definition format_d (n : Z) : string := NilEmpty.string_of_int (Z.to_int n).

(** ['%s_%d' % (s, n)] *)
Definition format_s_d (s : string) (n : Z) : string :=
  (s ++ "_" ++ format_d n)%string.

Record config : Type := MkConfig { dsn : value }.

(** [TheOracle.__init__(self, config)], a computation over the class
    attributes that returns the new instance.  [Task.__init__] only
    prepares the context and the logger, which start empty. *)
Definition TheOracle_init (cfg : config) : M TheOracle_class worker :=
  modify (fun c => MkClass (cls_name c) (instance c + 1)) ;;;
  fun c =>
    let self_name := format_s_d (cls_name c) (instance c) in
    match connect (dsn cfg) with
    | Raise e => (Raise e, c)
    | Return self_db =>
        let socket :=
          [Create; SetHwm 10; Connect ORACLE_QUEUE;
           Register "handle_db_request"; Send (Raw "READY")] in
        (Return (MkWorker self_name self_db socket []), c)
    end.

(** Workers constructed one after the other in one process; a constructor
    that raises leaves no worker but has advanced the counter. *)
Fixpoint construct_all (cfgs : list config) (c : TheOracle_class)
  : list (outcome worker) * TheOracle_class :=
  match cfgs with
  | [] => ([], c)
  | cfg :: rest =>
      let (r, c1) := TheOracle_init cfg c in
      let (rs, c2) := construct_all rest c1 in
      (r :: rs, c2)
  end.

End TheOracle.

(** ** DbClient *)

Section DbClient.
Context {RT : Runtime}.

(** A method invoked on an object handed in by the caller. *)
Record method_call : Type := MkCall {
  receiver : value;
  method : string;
  arguments : list value
}.

(** The client side of a process: the class attribute
    [DbClient.stats_type] (the field names of the named tuple class, once
    it exists), the [db_queue] of every instance, and the methods invoked
    on the caller's objects. *)
Record process : Type := MkProcess {
  stats_type : option (list string);
  sockets : list (list qevent);
  calls : list method_call
}.

Definition C : Type -> Type := M process.

(** What the transport does during one call: whether it takes the message
    of a non-blocking send at once, and the message that [recv_msg] then
    returns. *)
Record exchange : Type := MkExchange {
  writable : bool;
  incoming : value * value
}.

Fixpoint update_nth {A} (n : nat) (f : A -> A) (l : list A) : list A :=
  match l, n with
  | [], _ => []
  | x :: l', O => f x :: l'
  | x :: l', S n' => x :: update_nth n' f l'
  end.

Definition socket_event (self : nat) (ev : qevent) : C unit :=
  modify (fun p =>
    MkProcess (stats_type p)
              (update_nth self (fun q => q ++ [ev]) (sockets p))
              (calls p)).

Definition invoke (obj : value) (meth : string) (args : list value) : C unit :=
  modify (fun p =>
    MkProcess (stats_type p) (sockets p) (calls p ++ [MkCall obj meth args])).

(** [DbClient.__init__]: the new instance is the index of its socket. *)
Definition DbClient_init (db_queue_address : value) : C nat :=
  fun p =>
    (Return (List.length (sockets p)),
     MkProcess (stats_type p)
               (sockets p ++ [[Create; SetHwm 1; Connect db_queue_address]])
               (calls p)).

Definition EAGAIN : exn :=
  MkExn Again [VStr "Resource temporarily unavailable"].

(** [status == 'OK'] *)
Definition is_OK (status : value) : bool :=
  match status with
  | VStr s => String.eqb s "OK"
  | _ => false
  end.

Definition _execute (self : nat) (t : exchange) (msg : string) (data : value)
  : C value :=
  if writable t then
    socket_event self (Send (Msg (VStr msg) data)) ;;;
    socket_event self (Recv (Return [fst (incoming t); snd (incoming t)])) ;;;
    let (status, result) := incoming t in
    if is_OK status then ret result else raise (MkExn IOError [result])
  else
    socket_event self (Refused (Msg (VStr msg) data)) ;;;
    raise EAGAIN.

Definition add_new_package (self : nat) (t : exchange) (package skip : value)
  : C value :=
  _execute self t "NEWPKG" (VList [package; skip]).

Definition add_new_package_version (self : nat) (t : exchange)
  (package version released skip : value) : C value :=
  _execute self t "NEWVER" (VList [package; version; released; skip]).

Definition skip_package (self : nat) (t : exchange) (package reason : value)
  : C value :=
  _execute self t "SKIPPKG" (VList [package; reason]) ;;; ret VNone.

Definition skip_package_version (self : nat) (t : exchange)
  (package version reason : value) : C value :=
  _execute self t "SKIPVER" (VList [package; version; reason]) ;;; ret VNone.

Definition test_package_version (self : nat) (t : exchange)
  (package version : value) : C value :=
  _execute self t "PKGEXISTS" (VList [package; version]).

Definition log_download (self : nat) (t : exchange) (download : value)
  : C value :=
  _execute self t "LOGDOWNLOAD" (VList [download]) ;;; ret VNone.

Definition log_build (self : nat) (t : exchange) (build : value) : C value :=
  build_id <- _execute self t "LOGBUILD" (VList [build]) ;;
  invoke build "logged" [build_id] ;;;
  ret VNone.

Definition get_build_abis (self : nat) (t : exchange) : C value :=
  _execute self t "GETABIS" VNone.

Definition get_pypi_serial (self : nat) (t : exchange) : C value :=
  _execute self t "GETPYPI" VNone.

Definition set_pypi_serial (self : nat) (t : exchange) (serial : value)
  : C value :=
  _execute self t "SETPYPI" (VList [serial]) ;;; ret VNone.

Definition get_all_packages (self : nat) (t : exchange) : C value :=
  _execute self t "ALLPKGS" VNone.

Definition get_all_package_versions (self : nat) (t : exchange) : C value :=
  _execute self t "ALLVERS" VNone.

Definition get_downloads_recent (self : nat) (t : exchange) : C value :=
  _execute self t "GETDL" VNone.

Definition get_package_files (self : nat) (t : exchange) (package : value)
  : C value :=
  _execute self t "PKGFILES" (VList [package]).

Definition get_project_versions (self : nat) (t : exchange) (package : value)
  : C value :=
  _execute self t "PROJVERS" (VList [package]).

Definition get_project_files (self : nat) (t : exchange) (package : value)
  : C value :=
  _execute self t "PROJFILES" (VList [package]).

Definition get_version_files (self : nat) (t : exchange)
  (package version : value) : C value :=
  _execute self t "VERFILES" (VList [package; version]).

Definition get_version_skip (self : nat) (t : exchange)
  (package version : value) : C value :=
  _execute self t "GETSKIP" (VList [package; version]).

Definition get_file_dependencies (self : nat) (t : exchange) (filename : value)
  : C value :=
  _execute self t "FILEDEPS" (VList [filename]).

Definition delete_build (self : nat) (t : exchange) (package version : value)
  : C value :=
  _execute self t "DELBUILD" (VList [package; version]) ;;; ret VNone.

(** [for k, v in rec]: the pairs that the loop binds. *)
Definition unpack2 (item : value) : outcome (value * value) :=
  match iterate item with
  | Some [k; v] => Return (k, v)
  | Some l => Raise (interp_exn ValueError (UnpackCount 2 (List.length l)))
  | None => Raise (interp_exn TypeError (NotIterable item))
  end.

Fixpoint unpack_all (items : list value) : outcome (list (value * value)) :=
  match items with
  | [] => Return []
  | item :: rest =>
      match unpack2 item with
      | Raise e => Raise e
      | Return kv =>
          match unpack_all rest with
          | Raise e => Raise e
          | Return kvs => Return (kv :: kvs)
          end
      end
  end.

Definition pairs_of (rec : value) : outcome (list (value * value)) :=
  match iterate rec with
  | Some items => unpack_all items
  | None => Raise (interp_exn TypeError (NotIterable rec))
  end.

Definition starts_with_underscore (s : string) : bool :=
  match s with
  | String c _ => Ascii.eqb c "_"%char
  | EmptyString => false
  end.

Definition mem (k : string) (l : list string) : bool :=
  existsb (String.eqb k) l.

(** The second pass of [namedtuple] over the field names. *)
Fixpoint check_fields (seen names : list string) : outcome unit :=
  match names with
  | [] => Return tt
  | n :: rest =>
      if starts_with_underscore n then
        Raise (interp_exn ValueError (BadFieldName n))
      else if mem n seen then
        Raise (interp_exn ValueError (DuplicateField n))
      else check_fields (n :: seen) rest
  end.

(** [namedtuple('Statistics', field_names)]: the class is its field names. *)
Definition namedtuple (field_names : list value) : outcome (list string) :=
  let names := map py_str field_names in
  match find (fun n => negb (valid_identifier n)) names with
  | Some n => Raise (interp_exn ValueError (BadFieldName n))
  | None =>
      match check_fields [] names with
      | Raise e => Raise e
      | Return _ => Return names
      end
  end.

(** [{k: v for k, v in rec}] passed as keyword arguments: every key must be
    hashable to enter the dict and a [str] to be a keyword; a key that
    recurs keeps its place and takes the later value. *)
Fixpoint dict_set (k : string) (v : value) (d : list (string * value))
  : list (string * value) :=
  match d with
  | [] => [(k, v)]
  | (k', v') :: d' =>
      if String.eqb k k' then (k', v) :: d' else (k', v') :: dict_set k v d'
  end.

Fixpoint keywords (d : list (string * value)) (kvs : list (value * value))
  : outcome (list (string * value)) :=
  match kvs with
  | [] => Return d
  | (VStr k, v) :: rest => keywords (dict_set k v d) rest
  | (k, _) :: _ => Raise (interp_exn TypeError (KeywordNotString k))
  end.

(** The dict comprehension itself takes the items one at a time: it
    unpacks an item, hashes its key, and only then goes on to the next. *)
Fixpoint comprehension (items : list value) : outcome (list (value * value)) :=
  match items with
  | [] => Return []
  | item :: rest =>
      match unpack2 item with
      | Raise e => Raise e
      | Return (k, v) =>
          if hashable k then
            match comprehension rest with
            | Raise e => Raise e
            | Return kvs => Return ((k, v) :: kvs)
            end
          else Raise (interp_exn TypeError (Unhashable k))
      end
  end.

Definition keyword_dict (rec : value) : outcome (list (string * value)) :=
  match iterate rec with
  | Some items =>
      match comprehension items with
      | Raise e => Raise e
      | Return kvs => keywords [] kvs
      end
  | None => Raise (interp_exn TypeError (NotIterable rec))
  end.

(** The same on pairs that are already unpacked. *)
Definition kwargs (kvs : list (value * value))
  : outcome (list (string * value)) :=
  match find (fun kv => negb (hashable (fst kv))) kvs with
  | Some kv => Raise (interp_exn TypeError (Unhashable (fst kv)))
  | None => keywords [] kvs
  end.

Fixpoint collect (d : list (string * value)) (fields : list string)
  : option (list value) :=
  match fields with
  | [] => Some []
  | f :: rest =>
      match assoc f d, collect d rest with
      | Some v, Some vs => Some (v :: vs)
      | _, _ => None
      end
  end.

(** The call of [stats_type] with the dict [d] as keyword arguments. *)
Definition construct (fields : list string) (d : list (string * value))
  : outcome value :=
  match find (fun kv => negb (mem (fst kv) fields)) d with
  | Some kv => Raise (interp_exn TypeError (UnexpectedKeyword (fst kv)))
  | None =>
      match collect d fields with
      | Some vals => Return (VNamedTuple "Statistics" fields vals)
      | None =>
          Raise (interp_exn TypeError
                   (MissingArguments
                      (filter (fun f => negb (mem f (map fst d))) fields)))
      end
  end.

Definition set_stats_type (fields : list string) : C unit :=
  modify (fun p => MkProcess (Some fields) (sockets p) (calls p)).

Definition get_statistics (self : nat) (t : exchange) : C value :=
  rec <- _execute self t "GETSTATS" VNone ;;
  fields <- (fun p =>
     match stats_type p with
     | None =>
         (kvs <- lift (pairs_of rec) ;;
          fields <- lift (namedtuple (map fst kvs)) ;;
          set_stats_type fields ;;;
          ret fields) p
     | Some fields => (Return fields, p)
     end) ;;
  d <- lift (keyword_dict rec) ;;
  lift (construct fields d).

(** Calls of [get_statistics] made one after the other, each by some
    instance and with its own exchange. *)
Fixpoint get_statistics_seq (cs : list (nat * exchange)) (p : process)
  : list (outcome value) * process :=
  match cs with
  | [] => ([], p)
  | (self, t) :: rest =>
      let (r, p1) := get_statistics self t p in
      let (rs, p2) := get_statistics_seq rest p1 in
      (r :: rs, p2)
  end.

(** The methods of the client, as data. *)
Inductive call : Type :=
| AddNewPackage (package skip : value)
| AddNewPackageVersion (package version released skip : value)
| SkipPackage (package reason : value)
| SkipPackageVersion (package version reason : value)
| TestPackageVersion (package version : value)
| LogDownload (download : value)
| LogBuild (build : value)
| GetBuildAbis
| GetPypiSerial
| SetPypiSerial (serial : value)
| GetAllPackages
| GetAllPackageVersions
| GetStatistics
| GetDownloadsRecent
| GetPackageFiles (package : value)
| GetProjectVersions (package : value)
| GetProjectFiles (package : value)
| GetVersionFiles (package version : value)
| GetVersionSkip (package version : value)
| GetFileDependencies (filename : value)
| DeleteBuild (package version : value).

Definition perform (self : nat) (t : exchange) (c : call) : C value :=
  match c with
  | AddNewPackage package skip => add_new_package self t package skip
  | AddNewPackageVersion package version released skip =>
      add_new_package_version self t package version released skip
  | SkipPackage package reason => skip_package self t package reason
  | SkipPackageVersion package version reason =>
      skip_package_version self t package version reason
  | TestPackageVersion package version =>
      test_package_version self t package version
  | LogDownload download => log_download self t download
  | LogBuild build => log_build self t build
  | GetBuildAbis => get_build_abis self t
  | GetPypiSerial => get_pypi_serial self t
  | SetPypiSerial serial => set_pypi_serial self t serial
  | GetAllPackages => get_all_packages self t
  | GetAllPackageVersions => get_all_package_versions self t
  | GetStatistics => get_statistics self t
  | GetDownloadsRecent => get_downloads_recent self t
  | GetPackageFiles package => get_package_files self t package
  | GetProjectVersions package => get_project_versions self t package
  | GetProjectFiles package => get_project_files self t package
  | GetVersionFiles package version => get_version_files self t package version
  | GetVersionSkip package version => get_version_skip self t package version
  | GetFileDependencies filename => get_file_dependencies self t filename
  | DeleteBuild package version => delete_build self t package version
  end.

(** The operation name that a method puts on the wire. *)
Definition operation (c : call) : string :=
  match c with
  | AddNewPackage _ _ => "NEWPKG"
  | AddNewPackageVersion _ _ _ _ => "NEWVER"
  | SkipPackage _ _ => "SKIPPKG"
  | SkipPackageVersion _ _ _ => "SKIPVER"
  | TestPackageVersion _ _ => "PKGEXISTS"
  | LogDownload _ => "LOGDOWNLOAD"
  | LogBuild _ => "LOGBUILD"
  | GetBuildAbis => "GETABIS"
  | GetPypiSerial => "GETPYPI"
  | SetPypiSerial _ => "SETPYPI"
  | GetAllPackages => "ALLPKGS"
  | GetAllPackageVersions => "ALLVERS"
  | GetStatistics => "GETSTATS"
  | GetDownloadsRecent => "GETDL"
  | GetPackageFiles _ => "PKGFILES"
  | GetProjectVersions _ => "PROJVERS"
  | GetProjectFiles _ => "PROJFILES"
  | GetVersionFiles _ _ => "VERFILES"
  | GetVersionSkip _ _ => "GETSKIP"
  | GetFileDependencies _ => "FILEDEPS"
  | DeleteBuild _ _ => "DELBUILD"
  end.

(** The arguments that a method puts on the wire, and its whole request. *)
Definition arguments_of (c : call) : value :=
  match c with
  | AddNewPackage package skip => VList [package; skip]
  | AddNewPackageVersion package version released skip =>
      VList [package; version; released; skip]
  | SkipPackage package reason => VList [package; reason]
  | SkipPackageVersion package version reason =>
      VList [package; version; reason]
  | TestPackageVersion package version => VList [package; version]
  | LogDownload download => VList [download]
  | LogBuild build => VList [build]
  | SetPypiSerial serial => VList [serial]
  | GetPackageFiles package => VList [package]
  | GetProjectVersions package => VList [package]
  | GetProjectFiles package => VList [package]
  | GetVersionFiles package version => VList [package; version]
  | GetVersionSkip package version => VList [package; version]
  | GetFileDependencies filename => VList [filename]
  | DeleteBuild package version => VList [package; version]
  | GetBuildAbis | GetPypiSerial | GetAllPackages | GetAllPackageVersions
  | GetStatistics | GetDownloadsRecent => VNone
  end.

Definition request (c : call) : wire :=
  Msg (VStr (operation c)) (arguments_of c).

(** The events that one call adds to the socket of [self]. *)
Definition exchange_events (t : exchange) (m : wire) : list qevent :=
  if writable t then
    [Send m; Recv (Return [fst (incoming t); snd (incoming t)])]
  else [Refused m].

Definition exchanged (self : nat) (t : exchange) (m : wire) (p : process)
  : process :=
  MkProcess (stats_type p)
            (update_nth self (fun q => q ++ exchange_events t m) (sockets p))
            (calls p).

(** What [_execute] makes of the exchange. *)
Definition verdict (t : exchange) : outcome value :=
  if writable t then
    if is_OK (fst (incoming t)) then Return (snd (incoming t))
    else Raise (MkExn IOError [snd (incoming t)])
  else Raise EAGAIN.

(** The value that a list of pairs gives to a field name: that of the last
    pair with this name. *)
Fixpoint field_value (k : string) (kvs : list (value * value))
  : option value :=
  match kvs with
  | [] => None
  | (VStr k', v) :: rest =>
      match field_value k rest with
      | Some v' => Some v'
      | None => if String.eqb k k' then Some v else None
      end
  | _ :: rest => field_value k rest
  end.

(** [s] is an instance of the named tuple class with these fields. *)
Definition shaped (fields : list string) (s : value) : Prop :=
  exists vals, s = VNamedTuple "Statistics" fields vals /\
               List.length vals = List.length fields.

(** [s] holds, under every field name of the reply [rec], the value that
    the reply pairs with it. *)
Definition maps_fields (s rec : value) : Prop :=
  exists kvs,
    pairs_of rec = Return kvs /\
    (forall k v, In (k, v) kvs -> exists f, k = VStr f) /\
    (forall f v, field_value f kvs = Some v -> getattr s f = Return v).

End DbClient.


(** ** Between client and worker *)

(** Modelled from the spec: the transport and the broker that carry a
    message from a client to a worker and back are not part of this module.
    Section 6 of the specification gives the worker-bound envelope as
    [routingAddress][operationName][serializedArgs], with a codec that
    returns every value as it was sent, and the client-bound envelope as
    [routingAddress][status][payload], delivered to the client without its
    address. *)
Definition request_envelope (address : value) (m : wire)
  : option (list value) :=
  match m with
  | Msg msg data => Some [address; msg; data]
  | _ => None
  end.

Definition reply_envelope (m : wire) : option (value * value) :=
  match m with
  | AddrMsg _ status payload => Some (status, payload)
  | _ => None
  end.

(** The operation and the payload that a message carries, if any. *)
Definition wire_operation (m : wire) : option value :=
  match m with
  | Raw _ => None
  | Msg msg _ | AddrMsg _ msg _ => Some msg
  end.

Definition wire_payload (m : wire) : option value :=
  match m with
  | Raw _ => None
  | Msg _ data | AddrMsg _ _ data => Some data
  end.

(** The messages sent on a socket, oldest first. *)
Fixpoint sent (q : list qevent) : list wire :=
  match q with
  | [] => []
  | Send m :: q' => m :: sent q'
  | _ :: q' => sent q'
  end.

(** The store method that the handler of an operation calls, with the
    number of arguments the handler takes and the arguments it passes on. *)
Definition store_methods
  : list (string * (nat * string * (list value -> list value))) :=
  [ ("ALLPKGS", (0%nat, "get_all_packages", fun a => a));
    ("ALLVERS", (0%nat, "get_all_package_versions", fun a => a));
    ("NEWPKG", (2%nat, "add_new_package", firstn 1));
    ("NEWVER", (4%nat, "add_new_package_version", fun a => a));
    ("SKIPPKG", (2%nat, "skip_package", fun a => a));
    ("SKIPVER", (3%nat, "skip_package_version", fun a => a));
    ("LOGDOWNLOAD", (1%nat, "log_download", fun a => a));
    ("LOGBUILD", (1%nat, "log_build", fun a => a));
    ("DELBUILD", (2%nat, "delete_build", fun a => a));
    ("PKGFILES", (1%nat, "get_package_files", fun a => a));
    ("PROJVERS", (1%nat, "get_project_versions", fun a => a));
    ("PROJFILES", (1%nat, "get_project_files", fun a => a));
    ("VERFILES", (2%nat, "get_version_files", fun a => a));
    ("GETSKIP", (2%nat, "get_version_skip", fun a => a));
    ("PKGEXISTS", (2%nat, "test_package_version", fun a => a));
    ("GETABIS", (0%nat, "get_build_abis", fun a => a));
    ("GETPYPI", (0%nat, "get_pypi_serial", fun a => a));
    ("SETPYPI", (1%nat, "set_pypi_serial", fun a => a));
    ("GETSTATS", (0%nat, "get_statistics", fun a => a));
    ("GETDL", (0%nat, "get_downloads_recent", fun a => a));
    ("FILEDEPS", (1%nat, "get_file_dependencies", fun a => a)) ].

Definition store_request (op : string) (args : list value)
  : option (string * list value) :=
  match assoc op store_methods with
  | Some (n, m, pass) =>
      if Nat.eqb (List.length args) n then Some (m, pass args) else None
  | None => None
  end.

(** The keys of the dictionary of handlers. *)
Definition catalog : list string := map fst store_methods.

Section RoundTrip.
Context {RT : Runtime} {DB : Database}.

(** One call of a client method served by one worker: the client's request
    reaches the worker under the address the broker gave it, and the
    worker's last message is the reply that the client receives. *)
Definition round_trip (address : value) (self : nat) (c : call)
  (w : worker) (p : process)
  : option ((outcome value * process) * (outcome unit * worker)) :=
  match request_envelope address (request c) with
  | Some envelope =>
      let served := handle_db_request (Return envelope) w in
      match reply_envelope (last (sent (db_queue (snd served))) (Raw "")) with
      | Some reply => Some (perform self (MkExchange true reply) c p, served)
      | None => None
      end
  | None => None
  end.

(** The names of the workers that were constructed. *)
Fixpoint names (rs : list (outcome worker)) : list string :=
  match rs with
  | [] => []
  | Return w :: rs' => name w :: names rs'
  | Raise _ :: rs' => names rs'
  end.

End RoundTrip.

(** The parts of a request that was received whole, and the events a
    worker's queue shows for requests answered one after the other. *)
Definition parts (req : value * value * value) : list value :=
  let '(address, msg, data) := req in [address; msg; data].

Fixpoint transcript (reqs : list (value * value * value)) (replies : list wire)
  : list qevent :=
  match reqs, replies with
  | req :: reqs', rep :: replies' =>
      Recv (Return (parts req)) :: Send rep :: transcript reqs' replies'
  | _, _ => []
  end.

Definition answers (req : value * value * value) (rep : wire) : Prop :=
  exists status payload,
    rep = AddrMsg (fst (fst req)) status payload /\
    (status = VStr "OK" \/ status = VStr "ERROR").

(** ** A runtime and a store to evaluate the model on *)

Module Sample.

Definition repr (v : value) : string :=
  match v with
  | VNone => "None"
  | VBool true => "True"
  | VBool false => "False"
  | VInt z => NilEmpty.string_of_int (Z.to_int z)
  | VStr s => ("'" ++ s ++ "'")%string
  | _ => ("<" ++ type_name v ++ ">")%string
  end.

Definition runtime : Runtime := {|
  py_repr := repr;
  interp_text := fun _ => "error";
  valid_identifier := fun s => negb (String.eqb s "");
  set_of := VSet
|}.

(** A store that keeps a journal of the calls it received; when [broken]
    holds an exception, every call raises it. *)
Record journal : Type := MkJournal {
  entries : list (string * list value);
  broken : option exn
}.

Definition stamp (build : value) (n : Z) : value :=
  match build with
  | VObject c attrs => VObject c (("build_id", VInt n) :: attrs)
  | _ => build
  end.

Definition answer (m : string) (args : list value) (j : journal)
  : value * list value :=
  if String.eqb m "log_build" then
    (VNone, map (fun b => stamp b (Z.of_nat (List.length (entries j)) + 1)) args)
  else if String.eqb m "add_new_package" then (VBool true, args)
  else if String.eqb m "get_statistics" then
    (VDict [(VStr "downloads_last_month", VInt 100);
            (VStr "packages_count", VInt 500)], args)
  else (VNone, args).

Definition store : Database := {|
  conn := journal;
  connect := fun dsn =>
    match dsn with
    | VStr _ => Return (MkJournal [] None)
    | _ => Raise (MkExn ValueError [VStr "invalid dsn"])
    end;
  db_call := fun m args j =>
    match broken j with
    | Some e => (Raise e, j)
    | None => (Return (answer m args j),
               MkJournal (entries j ++ [(m, args)]) None)
    end
|}.

Definition const : Const := {| ORACLE_QUEUE := VStr "inproc://the-oracle" |}.

Definition worker0 : @worker store :=
  @MkWorker store "master.the_oracle_1" (MkJournal [] None) [] [].





Definition process0 : process := MkProcess None [[]; []] [].

Definition build0 : value := VObject "BuildState" [("package", VStr "foo")].

End Sample.

(** ** Families of client methods *)

(** The methods that end without a [return]: they give [None] whatever the
    reply carries. *)
Definition returns_nothing (c : call) : bool :=
  match c with
  | SkipPackage _ _ | SkipPackageVersion _ _ _ | LogDownload _
  | SetPypiSerial _ | DeleteBuild _ _ => true
  | _ => false
  end.

(** The methods with arguments whose handler returns what the store
    returned. *)
Definition passes_result (c : call) : bool :=
  match c with
  | AddNewPackage _ _ | AddNewPackageVersion _ _ _ _ | TestPackageVersion _ _
  | GetVersionSkip _ _ | GetFileDependencies _ => true
  | _ => false
  end.

(** The reply of [do_getstats] for a store row with these fields. *)
Definition row (fields : list (string * value)) : list (value * value) :=
  map (fun fv => (VStr (fst fv), snd fv)) fields.

Section Replies.
Context {RT : Runtime}.

(** The transport takes the request and answers [OK] with a payload that
    unpacks to these fields, no name twice. *)
Definition carries (t : exchange) (fields : list (string * value)) : Prop :=
  writable t = true /\
  fst (incoming t) = VStr "OK" /\
  pairs_of (snd (incoming t)) = Return (row fields) /\
  NoDup (map fst fields).

(** Names that [namedtuple] takes as field names. *)
Definition field_names_ok (names : list string) : Prop :=
  Forall (fun f => valid_identifier f = true /\
                   starts_with_underscore f = false) names.

End Replies.

(** * Properties *)

(** ** The monad and association lists *)

Lemma assoc_In {A} (k : string) (l : list (string * A)) (a : A) :
  assoc k l = Some a -> In (k, a) l.
Proof.
  induction l as [|[k' a'] l IH]; simpl; [discriminate|].
  destruct (String.eqb k k') eqn:E.
  - apply String.eqb_eq in E. intros [= ->]. subst. now left.
  - intros H. right. now apply IH.
Qed.

Lemma assoc_None {A} (k : string) (l : list (string * A)) :
  ~ In k (map fst l) -> assoc k l = None.
Proof.
  induction l as [|[k' a'] l IH]; simpl; [reflexivity|].
  intros H. destruct (String.eqb k k') eqn:E.
  - apply String.eqb_eq in E. subst. exfalso. apply H. now left.
  - apply IH. intros HIn. apply H. now right.
Qed.

(** ** The worker *)

Section TheOracle_properties.
Context {RT : Runtime} {DB : Database}.

Lemma frames_ret {A} (a : A) : frames (ret a).
Proof. intros w. now cbn. Qed.

Lemma frames_raise {A} (e : exn) : frames (@raise worker A e).
Proof. intros w. now cbn. Qed.

Lemma frames_lift {A} (r : outcome A) : frames (lift r).
Proof. intros w. now cbn. Qed.

Lemma frames_bind {A B} (c : W A) (k : A -> W B) :
  frames c -> (forall a, frames (k a)) -> frames (bind c k).
Proof.
  intros Hc Hk w. unfold bind. specialize (Hc w).
  destruct (c w) as [[a|e] w1]; cbn in *.
  - specialize (Hk a w1). destruct Hk as (H1 & H2 & H3), Hc as (H4 & H5 & H6).
    repeat split; congruence.
  - exact Hc.
Qed.

Lemma frames_db_invoke (m : string) (args : list value) :
  frames (db_invoke m args).
Proof.
  intros w. unfold db_invoke. now destruct (db_call m args (db w)).
Qed.

Lemma frames_call_db (m : string) (args : list value) :
  frames (call_db m args).
Proof.
  unfold call_db. apply frames_bind; [apply frames_db_invoke|].
  intros a. apply frames_ret.
Qed.

Lemma frames_arity_error {A} (f : string) (n : nat) (args : list value) :
  frames (arity_error (A:=A) f n args).
Proof. apply frames_raise. Qed.

Create HintDb frames.
#[local] Hint Resolve frames_ret frames_raise frames_lift frames_db_invoke
  frames_call_db frames_arity_error : frames.
#[local] Hint Extern 2 (frames (bind _ _)) =>
  apply frames_bind; [|intros ?] : frames.

Ltac split_args args :=
  destruct args as [|? [|? [|? [|? [|? ?]]]]]; cbn.

Lemma frames_handlers :
  Forall (fun kv => forall args, frames (snd (snd kv) args)) handlers.
Proof.
  unfold handlers.
  repeat (apply Forall_cons; [intros args; split_args args; auto with frames|]).
  apply Forall_nil.
Qed.

Lemma frames_dispatch (msg data : value) :
  frames (h <- lookup_handler msg ;; call_star h data).
Proof.
  intros w. unfold bind, lookup_handler.
  destruct (hashable msg); [|now cbn].
  destruct msg; try now cbn.
  destruct (assoc s handlers) as [h|] eqn:E; [|now cbn].
  cbn. unfold call_star. destruct (iterate data) as [args|]; [|now cbn].
  apply assoc_In in E.
  pose proof frames_handlers as F. rewrite Forall_forall in F.
  exact (F _ E args w).
Qed.

(** One call of the handler on a message of three parts. *)
Lemma handle_parsed (address msg data : value) (w : worker) :
  exists status payload w',
    handle_db_request (Return [address; msg; data]) w = (Return tt, w') /\
    (status = VStr "OK" \/ status = VStr "ERROR") /\
    name w' = name w /\
    db_queue w' = db_queue w ++ [Recv (Return [address; msg; data]);
                                 Send (AddrMsg address status payload)].
Proof.
  unfold handle_db_request. cbn [unpack3].
  set (w1 := snd (queue_event (Recv (Return [address; msg; data])) w)).
  pose proof (frames_dispatch msg data w1) as (Hn & Hq & _).
  destruct ((h <- lookup_handler msg ;; call_star h data) w1) as [[r|e] w2];
    cbn in Hn, Hq |- *.
  - exists (VStr "OK"), r. eexists. split; [reflexivity|]. cbn.
    rewrite Hq, Hn, <- app_assoc. auto.
  - exists (VStr "ERROR"), (VStr (str_exn e)). eexists.
    split; [reflexivity|]. cbn. rewrite Hq, Hn, <- app_assoc. auto.
Qed.

(** C1. Every request that the receive step parses into an address, an
    operation name and arguments is answered by exactly one reply, which
    carries the address of the request and is sent before the next request
    is received: for requests served one after the other the handler always
    returns normally, whatever the operation name and whatever the handler
    does, and the queue shows receive, reply, receive, reply, ... *)
Theorem reply_cardinality (reqs : list (value * value * value)) (w : worker) :
  exists (replies : list wire) (w' : worker),
    serve (map (fun req => Return (parts req)) reqs) w = (Return tt, w') /\
    Forall2 answers reqs replies /\
    db_queue w' = db_queue w ++ transcript reqs replies.
Proof.
  revert w. induction reqs as [|[[address msg] data] reqs IH]; intros w.
  - exists [], w. cbn. rewrite app_nil_r. auto.
  - destruct (handle_parsed address msg data w)
      as (status & payload & w1 & Hrun & Hst & _ & Hq).
    destruct (IH w1) as (replies & w' & Hserve & Hall & Hq').
    exists (AddrMsg address status payload :: replies), w'.
    split; [|split].
    + cbn [map serve parts]. unfold bind. rewrite Hrun. exact Hserve.
    + constructor; [|exact Hall]. exists status, payload. auto.
    + rewrite Hq', Hq, <- app_assoc. reflexivity.
Qed.

Lemma sent_app (q q' : list qevent) : sent (q ++ q') = sent q ++ sent q'.
Proof.
  induction q as [|ev q IH]; [reflexivity|].
  destruct ev; cbn; rewrite IH; reflexivity.
Qed.

(** C4, as the code has it. When the receive raises an [IOError] the
    handler logs the exception, sends nothing, changes nothing else and
    returns normally, so the loop goes on to the next event; and among the
    calls of the handler that return normally these are the only ones that
    send no reply. *)
Theorem receive_failure (e : exn) (w : worker) :
  is_IOError (exn_class e) = true ->
  handle_db_request (Raise e) w =
    (Return tt,
     MkWorker (name w) (db w) (db_queue w ++ [Recv (Raise e)])
              (logger w ++ [LogException e])) /\
  (forall received w0 w',
      handle_db_request received w0 = (Return tt, w') ->
      sent (db_queue w') = sent (db_queue w0) ->
      exists e', received = Raise e' /\ is_IOError (exn_class e') = true).
Proof.
  intros Hio. split.
  - unfold handle_db_request. rewrite Hio. reflexivity.
  - intros received w0 w' Hrun Hsent.
    destruct received as [ps|e'].
    + destruct ps as [|a [|m [|d [|x ps]]]];
        try (unfold handle_db_request in Hrun; cbn in Hrun; discriminate).
      destruct (handle_parsed a m d w0) as (st & pl & w1 & Hrun1 & _ & _ & Hq).
      rewrite Hrun in Hrun1. injection Hrun1 as <-.
      rewrite Hq, sent_app in Hsent. cbn in Hsent.
      apply (f_equal (@List.length wire)) in Hsent.
      rewrite length_app in Hsent. cbn in Hsent. lia.
    + exists e'. split; [reflexivity|].
      unfold handle_db_request in Hrun.
      destruct (is_IOError (exn_class e')); [reflexivity|discriminate].
Qed.

End TheOracle_properties.

(** ** The client *)

Section DbClient_properties.
Context {RT : Runtime}.

Lemma update_nth_twice {A} (n : nat) (f g : A -> A) (l : list A) :
  update_nth n g (update_nth n f l) = update_nth n (fun x => g (f x)) l.
Proof.
  revert n. induction l as [|x l IH]; intros [|n]; cbn; try reflexivity.
  now rewrite IH.
Qed.

Lemma update_nth_ext {A} (n : nat) (f g : A -> A) (l : list A) :
  (forall x, f x = g x) -> update_nth n f l = update_nth n g l.
Proof.
  intros H. revert n. induction l as [|x l IH]; intros [|n]; cbn;
    try reflexivity; [now rewrite H | now rewrite IH].
Qed.

(** [_execute] in one step: its result is the [verdict] on the exchange
    and its only effect the events on the socket. *)
Lemma execute_spec (self : nat) (t : exchange) (msg : string) (data : value)
  (p : process) :
  _execute self t msg data p =
    (verdict t, exchanged self t (Msg (VStr msg) data) p).
Proof.
  unfold _execute, verdict, exchanged, exchange_events.
  destruct (writable t); unfold bind, socket_event, modify, raise; cbn.
  - destruct (incoming t) as [status result]; cbn.
    assert (E : forall r : outcome value,
      (r, MkProcess (stats_type p)
            (update_nth self
               (fun q => q ++ [Recv (Return [status; result])])
               (update_nth self
                  (fun q => q ++ [Send (Msg (VStr msg) data)]) (sockets p)))
            (calls p)) =
      (r, MkProcess (stats_type p)
            (update_nth self
               (fun q => q ++ [Send (Msg (VStr msg) data);
                               Recv (Return [status; result])]) (sockets p))
            (calls p))).
    { intros r. rewrite update_nth_twice. do 2 f_equal.
      apply update_nth_ext. intros q. now rewrite <- app_assoc. }
    destruct (is_OK status); apply E.
  - reflexivity.
Qed.

(** A failed exchange fails every method, before anything else is done. *)
Lemma perform_raises (self : nat) (t : exchange) (c : call) (p : process)
  (e : exn) :
  verdict t = Raise e ->
  perform self t c p = (Raise e, exchanged self t (request c) p).
Proof.
  intros H.
  destruct c; cbn [perform];
    unfold add_new_package, add_new_package_version, skip_package,
      skip_package_version, test_package_version, log_download, log_build,
      get_build_abis, get_pypi_serial, set_pypi_serial, get_all_packages,
      get_all_package_versions, get_statistics, get_downloads_recent,
      get_package_files, get_project_versions, get_project_files,
      get_version_files, get_version_skip, get_file_dependencies,
      delete_build, bind;
    rewrite execute_spec, H; reflexivity.
Qed.

(** *** Decoding the statistics *)

Lemma comprehension_unpacked (items : list value) :
  forall kvs, unpack_all items = Return kvs ->
    comprehension items =
      match find (fun kv => negb (hashable (fst kv))) kvs with
      | Some kv => Raise (interp_exn TypeError (Unhashable (fst kv)))
      | None => Return kvs
      end.
Proof.
  induction items as [|item items IH]; intros kvs H; cbn in H |- *.
  - now injection H as <-.
  - destruct (unpack2 item) as [[k v]|e]; [|discriminate].
    destruct (unpack_all items) as [kvs'|e]; [|discriminate].
    injection H as <-. cbn. destruct (hashable k); cbn; [|reflexivity].
    rewrite (IH kvs' eq_refl).
    destruct (find _ kvs'); reflexivity.
Qed.

Lemma comprehension_unpacks (items : list value) :
  forall kvs, comprehension items = Return kvs -> unpack_all items = Return kvs.
Proof.
  induction items as [|item items IH]; intros kvs H; cbn in H |- *.
  - exact H.
  - destruct (unpack2 item) as [[k v]|e]; [|discriminate].
    destruct (hashable k); [|discriminate].
    destruct (comprehension items) as [kvs'|e]; [|discriminate].
    injection H as <-. now rewrite (IH kvs' eq_refl).
Qed.

(** On a reply whose items all unpack, the comprehension differs from
    unpacking first and hashing afterwards in nothing. *)
Lemma keyword_dict_eq (rec : value) (kvs : list (value * value)) :
  pairs_of rec = Return kvs -> keyword_dict rec = kwargs kvs.
Proof.
  unfold pairs_of, keyword_dict, kwargs.
  destruct (iterate rec) as [items|]; [|discriminate]. intros H.
  rewrite (comprehension_unpacked items H).
  destruct (find _ kvs); reflexivity.
Qed.

Lemma keyword_dict_pairs (rec : value) (d : list (string * value)) :
  keyword_dict rec = Return d ->
  exists kvs, pairs_of rec = Return kvs /\ kwargs kvs = Return d.
Proof.
  intros H. assert (H' := H). unfold keyword_dict in H'. unfold pairs_of.
  destruct (iterate rec) as [items|] eqn:E; [|discriminate].
  destruct (comprehension items) as [kvs|e] eqn:Ec; [|discriminate].
  exists kvs. pose proof (comprehension_unpacks items Ec) as Hu.
  split; [exact Hu|]. rewrite <- (keyword_dict_eq rec (kvs := kvs)); [exact H|].
  unfold pairs_of. now rewrite E.
Qed.

Lemma get_statistics_pinned (self : nat) (t : exchange) (p : process)
  (fields : list string) :
  stats_type p = Some fields ->
  get_statistics self t p =
    (match verdict t with
     | Raise e => Raise e
     | Return rec =>
         match keyword_dict rec with
         | Raise e => Raise e
         | Return d => construct fields d
         end
     end,
     exchanged self t (Msg (VStr "GETSTATS") VNone) p).
Proof.
  intros H. unfold get_statistics, bind. rewrite execute_spec.
  destruct (verdict t) as [rec|e]; [|reflexivity].
  cbn [stats_type exchanged]. rewrite H. unfold lift.
  destruct (keyword_dict rec) as [d|e]; reflexivity.
Qed.

Lemma get_statistics_fresh (self : nat) (t : exchange) (p : process) :
  stats_type p = None ->
  get_statistics self t p =
    let p0 := exchanged self t (Msg (VStr "GETSTATS") VNone) p in
    match verdict t with
    | Raise e => (Raise e, p0)
    | Return rec =>
        match pairs_of rec with
        | Raise e => (Raise e, p0)
        | Return kvs =>
            match namedtuple (map fst kvs) with
            | Raise e => (Raise e, p0)
            | Return fields =>
                (match kwargs kvs with
                 | Raise e => Raise e
                 | Return d => construct fields d
                 end,
                 MkProcess (Some fields) (sockets p0) (calls p0))
            end
        end
    end.
Proof.
  intros H. unfold get_statistics, bind. rewrite execute_spec.
  destruct (verdict t) as [rec|e]; [|reflexivity].
  cbn [stats_type exchanged]. rewrite H. unfold lift, bind.
  destruct (pairs_of rec) as [kvs|e] eqn:Hp; [|reflexivity].
  destruct (namedtuple (map fst kvs)) as [fields|e]; [|reflexivity].
  cbn. rewrite (keyword_dict_eq rec Hp).
  destruct (kwargs kvs) as [d|e]; reflexivity.
Qed.

Lemma assoc_dict_set (f k : string) (v : value) (d : list (string * value)) :
  assoc f (dict_set k v d) = if String.eqb f k then Some v else assoc f d.
Proof.
  induction d as [|[k' v'] d IH]; cbn; [reflexivity|].
  destruct (String.eqb k k') eqn:E; cbn.
  - apply String.eqb_eq in E. subst k'.
    destruct (String.eqb f k); reflexivity.
  - rewrite IH. destruct (String.eqb f k') eqn:E'; [|reflexivity].
    apply String.eqb_eq in E'. subst k'.
    destruct (String.eqb f k) eqn:E''; [|reflexivity].
    apply String.eqb_eq in E''. subst k. rewrite String.eqb_refl in E.
    discriminate.
Qed.

Lemma keywords_spec (kvs : list (value * value)) :
  forall d d', keywords d kvs = Return d' ->
    (forall k v, In (k, v) kvs -> exists f, k = VStr f) /\
    (forall f, assoc f d' = match field_value f kvs with
                            | Some v => Some v
                            | None => assoc f d
                            end).
Proof.
  induction kvs as [|[k v] kvs IH]; intros d d' H; cbn in H.
  - injection H as <-. split; [intros k v []|reflexivity].
  - destruct k; try discriminate.
    destruct (IH _ _ H) as [Hk Hv]. split.
    + intros k v' [[= <- <-]|HIn]; [now exists s|now apply (Hk k v')].
    + intros f. rewrite Hv. cbn. rewrite assoc_dict_set.
      destruct (field_value f kvs); [reflexivity|].
      destruct (String.eqb f s); reflexivity.
Qed.

Lemma kwargs_spec (kvs : list (value * value)) (d : list (string * value)) :
  kwargs kvs = Return d ->
  (forall k v, In (k, v) kvs -> exists f, k = VStr f) /\
  (forall f v, field_value f kvs = Some v -> assoc f d = Some v).
Proof.
  unfold kwargs. destruct (find _ kvs); [discriminate|]. intros H.
  destruct (keywords_spec _ _ H) as [Hk Hv]. split; [exact Hk|].
  intros f v Hf. now rewrite Hv, Hf.
Qed.

Lemma collect_spec (d : list (string * value)) (fields : list string) :
  forall vals, collect d fields = Some vals ->
    List.length vals = List.length fields /\
    (forall f, mem f fields = true ->
               assoc f (combine fields vals) = assoc f d).
Proof.
  induction fields as [|f0 fields IH]; intros vals H; cbn in H.
  - injection H as <-. split; [reflexivity|]. intros f Hf. discriminate.
  - destruct (assoc f0 d) as [v|] eqn:E; [|discriminate].
    destruct (collect d fields) as [vs|]; [|discriminate].
    injection H as <-. destruct (IH vs eq_refl) as [Hl Ha]. split.
    + cbn. now rewrite Hl.
    + intros f Hf. cbn in Hf |- *.
      destruct (String.eqb f f0) eqn:E'.
      * apply String.eqb_eq in E'. now subst.
      * apply Ha. exact Hf.
Qed.

Lemma construct_spec (fields : list string) (d : list (string * value))
  (s : value) :
  construct fields d = Return s ->
  shaped fields s /\
  (forall f v, assoc f d = Some v -> getattr s f = Return v).
Proof.
  unfold construct.
  destruct (find _ d) eqn:Hfind; [discriminate|].
  destruct (collect d fields) as [vals|] eqn:Hc; [|discriminate].
  intros [= <-]. destruct (collect_spec _ _ Hc) as [Hl Ha]. split.
  - now exists vals.
  - intros f v Hf. cbn. rewrite Ha, Hf; [reflexivity|].
    apply assoc_In in Hf.
    pose proof (find_none _ _ Hfind _ Hf) as Hm. cbn in Hm.
    now destruct (mem f fields).
Qed.

(** A call that returns a structure returns one of the class it was built
    with, holding the values of the reply. *)
Lemma decode_spec (fields : list string) (rec s : value) :
  match keyword_dict rec with
  | Raise e => Raise e
  | Return d => construct fields d
  end = Return s ->
  shaped fields s /\ maps_fields s rec.
Proof.
  destruct (keyword_dict rec) as [d|e] eqn:Hkd; [|discriminate].
  destruct (keyword_dict_pairs rec Hkd) as (kvs & Hp & Hk).
  intros Hc. destruct (construct_spec _ _ Hc) as [Hs Hg].
  destruct (kwargs_spec _ Hk) as [Hkeys Hv].
  split; [exact Hs|]. exists kvs. rewrite Hp. repeat split; auto.
Qed.

Lemma pinned_step (self : nat) (t : exchange) (p : process)
  (fields : list string) :
  stats_type p = Some fields ->
  stats_type (snd (get_statistics self t p)) = Some fields /\
  (forall s, fst (get_statistics self t p) = Return s ->
             shaped fields s /\ maps_fields s (snd (incoming t))).
Proof.
  intros H. rewrite (get_statistics_pinned self t p H). cbn [fst snd].
  split; [exact H|]. intros s Hs.
  unfold verdict in Hs. destruct (writable t); [|discriminate].
  destruct (is_OK (fst (incoming t))); [|discriminate].
  now apply decode_spec.
Qed.

Lemma pinned_seq (cs : list (nat * exchange)) (fields : list string) :
  forall p, stats_type p = Some fields ->
    stats_type (snd (get_statistics_seq cs p)) = Some fields /\
    Forall2 (fun c r => forall s, r = Return s ->
               shaped fields s /\ maps_fields s (snd (incoming (snd c))))
            cs (fst (get_statistics_seq cs p)).
Proof.
  induction cs as [|[self t] cs IH]; intros p H; cbn.
  - split; [exact H|constructor].
  - destruct (pinned_step self t p H) as [H1 Hs].
    destruct (get_statistics self t p) as [r p1]. cbn in H1, Hs.
    destruct (IH p1 H1) as [H2 Hall].
    destruct (get_statistics_seq cs p1) as [rs p2]. cbn in *.
    split; [exact H2|]. constructor; [|exact Hall].
    intros s ->. now apply Hs.
Qed.

(** Whatever the replies are: a call that sets the class attribute sets it
    to the field names of its reply, no later call changes it, and every
    call that returns a structure returns an instance of that class which
    holds, under each field name of its reply, the value that the reply
    pairs with the name. *)
Lemma shape_once_pinned (self : nat) (t : exchange)
  (cs : list (nat * exchange)) (p : process) (fields : list string) :
  stats_type p = None ->
  stats_type (snd (get_statistics self t p)) = Some fields ->
  (exists kvs, pairs_of (snd (incoming t)) = Return kvs /\
               fields = map py_str (map fst kvs)) /\
  (forall s, fst (get_statistics self t p) = Return s ->
             shaped fields s /\ maps_fields s (snd (incoming t))) /\
  stats_type (snd (get_statistics_seq cs (snd (get_statistics self t p))))
    = Some fields /\
  Forall2 (fun c r => forall s, r = Return s ->
             shaped fields s /\ maps_fields s (snd (incoming (snd c))))
          cs (fst (get_statistics_seq cs (snd (get_statistics self t p)))).
Proof.
  intros Hnone Hset.
  destruct (pinned_seq cs _ Hset) as [Hlater Hall].
  refine (conj _ (conj _ (conj Hlater Hall))).
  - rewrite (get_statistics_fresh self t p Hnone) in Hset. cbn zeta in Hset.
    unfold verdict in Hset.
    destruct (writable t); [|cbn in Hset; congruence].
    destruct (is_OK (fst (incoming t))); [|cbn in Hset; congruence].
    destruct (pairs_of (snd (incoming t))) as [kvs|e];
      [|cbn in Hset; congruence].
    exists kvs. split; [reflexivity|].
    unfold namedtuple in Hset |- *.
    destruct (find _ (map py_str (map fst kvs)));
      [cbn in Hset; congruence|].
    destruct (check_fields [] (map py_str (map fst kvs)));
      cbn in Hset; congruence.
  - intros s Hs.
    rewrite (get_statistics_fresh self t p Hnone) in Hs, Hset.
    cbn zeta in Hs, Hset. unfold verdict in Hs, Hset.
    destruct (writable t); [|discriminate].
    destruct (is_OK (fst (incoming t))); [|discriminate].
    destruct (pairs_of (snd (incoming t))) as [kvs|e] eqn:Hp; [|discriminate].
    destruct (namedtuple (map fst kvs)) as [fs|e]; [|discriminate].
    cbn in Hs, Hset. injection Hset as ->.
    apply decode_spec. now rewrite (keyword_dict_eq _ Hp).
Qed.

(** Whatever a method does after the exchange, it leaves the sockets alone. *)
Lemma perform_sockets (self : nat) (t : exchange) (c : call) (p : process) :
  sockets (snd (perform self t c p)) =
    sockets (exchanged self t (request c) p).
Proof.
  destruct c; cbn [perform];
    try (unfold add_new_package, add_new_package_version, skip_package,
           skip_package_version, test_package_version, log_download,
           log_build, get_build_abis, get_pypi_serial, set_pypi_serial,
           get_all_packages, get_all_package_versions, get_downloads_recent,
           get_package_files, get_project_versions, get_project_files,
           get_version_files, get_version_skip, get_file_dependencies,
           delete_build, bind;
         rewrite execute_spec; destruct (verdict t); reflexivity).
  destruct (stats_type p) as [fields|] eqn:E.
  - now rewrite (get_statistics_pinned self t p E).
  - rewrite (get_statistics_fresh self t p E). cbn zeta.
    destruct (verdict t) as [rec|e]; [|reflexivity].
    destruct (pairs_of rec) as [kvs|e]; [|reflexivity].
    destruct (namedtuple (map fst kvs)); reflexivity.
Qed.

(** C5. A call attempts its send without blocking.  When the transport does
    not take the message at once, the call raises EAGAIN there and then: the
    socket shows the one refused attempt, no message sent and no receive,
    and nothing else of the process has changed.  Only a call whose send
    was taken goes on to receive the reply. *)
Theorem backpressure (self : nat) (t : exchange) (c : call) (p : process) :
  writable t = false ->
  perform self t c p =
    (Raise EAGAIN,
     MkProcess (stats_type p)
               (update_nth self (fun q => q ++ [Refused (request c)])
                           (sockets p))
               (calls p)) /\
  (forall t',
      writable t' = true ->
      sockets (snd (perform self t' c p)) =
        update_nth self
          (fun q => q ++ [Send (request c);
                          Recv (Return [fst (incoming t'); snd (incoming t')])])
          (sockets p)).
Proof.
  intros Hw. split.
  - rewrite (perform_raises self t c p (e := EAGAIN)).
    + unfold exchanged, exchange_events. now rewrite Hw.
    + unfold verdict. now rewrite Hw.
  - intros t' Hw'. rewrite perform_sockets. cbn.
    unfold exchange_events. now rewrite Hw'.
Qed.

End DbClient_properties.

(** ** Worker and client together *)

Section RPC_properties.
Context {RT : Runtime} {DB : Database} {CONST : Const}.

Lemma catalog_handlers : map fst (handlers (RT:=RT) (DB:=DB)) = catalog.
Proof. reflexivity. Qed.



(** An [ERROR] reply that reaches a client makes the method raise an
    [IOError] whose only argument is the payload. *)
Lemma error_reply_raises (self : nat) (t : exchange) (c : call) (p : process)
  (address payload : value) :
  writable t = true ->
  reply_envelope (AddrMsg address (VStr "ERROR") payload) = Some (incoming t) ->
  perform self t c p =
    (Raise (MkExn IOError [payload]), exchanged self t (request c) p).
Proof.
  intros Hw [= Hin]. apply perform_raises.
  unfold verdict. now rewrite Hw, <- Hin.
Qed.


(** C3. A request whose operation name is not a key of the dictionary of
    handlers does not stop the worker and is not handled as a failed
    receive: the lookup raises, the handler logs the operation name as it
    does for any failed handler, replies [ERROR] to the address of the
    request and returns normally; the client that receives the reply
    raises. *)
Theorem unknown_operation (address msg data : value) (w : worker) :
  (forall s, msg = VStr s -> ~ In s catalog) ->
  exists exc,
    handle_db_request (Return [address; msg; data]) w =
      (Return tt,
       MkWorker (name w) (db w)
         (db_queue w ++
            [Recv (Return [address; msg; data]);
             Send (AddrMsg address (VStr "ERROR") (VStr (str_exn exc)))])
         (logger w ++ [LogError "Error handling db request: %s" msg])) /\
    (forall self t c p,
        writable t = true ->
        reply_envelope (AddrMsg address (VStr "ERROR") (VStr (str_exn exc)))
          = Some (incoming t) ->
        perform self t c p =
          (Raise (MkExn IOError [VStr (str_exn exc)]),
           exchanged self t (request c) p)).
Proof.
  intros Hkey.
  assert (Hlook : exists exc, forall w1 : worker,
             lookup_handler msg w1 = (Raise exc, w1)).
  { unfold lookup_handler. destruct (hashable msg).
    - destruct msg; try (eexists; intros; reflexivity).
      rewrite (assoc_None s (handlers (RT:=RT) (DB:=DB))).
      + eexists; intros; reflexivity.
      + rewrite catalog_handlers. now apply Hkey.
    - eexists; intros; reflexivity. }
  destruct Hlook as [exc Hlook]. exists exc. split.
  - unfold handle_db_request. cbn [unpack3]. unfold bind.
    rewrite Hlook. cbn. unfold send_addr_msg, queue_event, modify. cbn.
    now rewrite <- app_assoc.
  - intros self t c p Hw Hin. now apply error_reply_raises with address.
Qed.

Lemma last_sent (q : list qevent) (ev : qevent) (m d : wire) :
  last (sent (q ++ [ev; Send m])) d = m.
Proof.
  rewrite sent_app. destruct ev; cbn;
    first [apply last_last
          | change [m0; m] with ([m0] ++ [m]); rewrite app_assoc;
            apply last_last].
Qed.

(** The handler on a request for an operation that has a handler. *)
Lemma handle_known (address : value) (op : string) (data : value)
  (args : list value) (h : string * handler) (w : worker) :
  assoc op handlers = Some h ->
  iterate data = Some args ->
  handle_db_request (Return [address; VStr op; data]) w =
    let w1 := MkWorker (name w) (db w)
                (db_queue w ++ [Recv (Return [address; VStr op; data])])
                (logger w) in
    let r := fst (snd h args w1) in
    let w2 := snd (snd h args w1) in
    (Return tt,
     MkWorker (name w2) (db w2)
       (db_queue w2 ++
          [Send (AddrMsg address (fst (reply_of r)) (snd (reply_of r)))])
       (logger w2 ++
          match r with
          | Raise _ => [LogError "Error handling db request: %s" (VStr op)]
          | Return _ => []
          end)).
Proof.
  intros Hh Hit. unfold handle_db_request. cbn [unpack3].
  unfold bind, lookup_handler. cbn [hashable]. rewrite Hh.
  unfold ret, call_star. rewrite Hit. cbn [snd queue_event modify].
  destruct (snd h args _) as [[r|e] w2]; cbn; rewrite ?app_nil_r; reflexivity.
Qed.

Lemma round_trip_spec (address : value) (self : nat) (c : call)
  (w w' : worker) (p : process) (q : list qevent) (ev : qevent)
  (st pl : value) :
  handle_db_request (Return [address; VStr (operation c); arguments_of c]) w
    = (Return tt, w') ->
  db_queue w' = q ++ [ev; Send (AddrMsg address st pl)] ->
  round_trip address self c w p =
    Some (perform self (MkExchange true (st, pl)) c p, (Return tt, w')).
Proof.
  intros H Hq. unfold round_trip. cbn [request_envelope request].
  rewrite H. cbn [snd]. rewrite Hq, last_sent. reflexivity.
Qed.

(** C9. [add_new_package(package, skip)] puts both values on the wire, and
    the handler of NEWPKG calls the store's [add_new_package] with the
    package alone: the store is left as that call leaves it, and the caller
    gets the result of that call (or the [IOError] made from its failure),
    whatever [skip] was. *)
Theorem skip_is_discarded (address : value) (self : nat)
  (package skip : value) (w : worker) (p : process) :
  exists w' p' ev,
    round_trip address self (AddNewPackage package skip) w p =
      Some ((match fst (db_call "add_new_package" [package] (db w)) with
             | Return r => Return (fst r)
             | Raise e => Raise (MkExn IOError [VStr (str_exn e)])
             end, p'),
            (Return tt, w')) /\
    db w' = snd (db_call "add_new_package" [package] (db w)) /\
    sockets p' =
      update_nth self
        (fun q => q ++ [Send (Msg (VStr "NEWPKG") (VList [package; skip])); ev])
        (sockets p).
Proof.
  pose proof (handle_known address "NEWPKG" (VList [package; skip])
                (args := [package; skip]) (h := ("do_newpkg", do_newpkg)) w
                eq_refl eq_refl) as Hh.
  cbn [snd do_newpkg] in Hh. unfold call_db, bind, db_invoke in Hh.
  cbn [db] in Hh.
  destruct (db_call "add_new_package" [package] (db w)) as [[r|e] c'];
    cbn [fst snd ret reply_of name db db_queue logger] in Hh |- *;
    rewrite <- app_assoc in Hh; cbn [app] in Hh;
    rewrite (@round_trip_spec address self (AddNewPackage package skip) w _ p
               (db_queue w) _ _ _ Hh eq_refl);
    cbn [perform]; unfold add_new_package; rewrite execute_spec;
    do 3 eexists; (split; [reflexivity|split; reflexivity]).
Qed.

(** C10. When the store logs the build and stamps it with an identifier,
    the worker replies [OK] with that identifier; the client then calls
    [logged] on the build it was given, once and with exactly this
    identifier, and returns [None].  On an [ERROR] reply the client raises
    and [logged] is not called. *)
Theorem log_build_stamps (address : value) (self : nat) (build : value)
  (w : worker) (p : process) (r stamped id : value) (rest : list value)
  (c' : conn) :
  db_call "log_build" [build] (db w) = (Return (r, stamped :: rest), c') ->
  getattr stamped "build_id" = Return id ->
  (exists w' p',
      round_trip address self (LogBuild build) w p =
        Some ((Return VNone, p'), (Return tt, w')) /\
      sent (db_queue w') =
        sent (db_queue w) ++ [AddrMsg address (VStr "OK") id] /\
      calls p' = calls p ++ [MkCall build "logged" [id]]) /\
  (forall t payload,
      writable t = true ->
      incoming t = (VStr "ERROR", payload) ->
      log_build self t build p =
        (Raise (MkExn IOError [payload]),
         exchanged self t (request (LogBuild build)) p) /\
      calls (snd (log_build self t build p)) = calls p).
Proof.
  intros Hdb Hid. split.
  - pose proof (handle_known address "LOGBUILD" (VList [build])
                  (args := [build]) (h := ("do_logbuild", do_logbuild)) w
                  eq_refl eq_refl) as Hh.
    cbn [snd do_logbuild] in Hh. unfold bind, db_invoke, lift in Hh.
    cbn [db] in Hh. rewrite Hdb in Hh. cbn [snd hd] in Hh. rewrite Hid in Hh.
    cbn [fst snd reply_of name db db_queue logger] in Hh.
    rewrite <- app_assoc in Hh. cbn [app] in Hh.
    rewrite (@round_trip_spec address self (LogBuild build) w _ p
               (db_queue w) _ _ _ Hh eq_refl).
    cbn [perform]. unfold log_build, bind. rewrite execute_spec.
    do 2 eexists. split; [reflexivity|]. split; [|reflexivity].
    cbn [db_queue]. rewrite sent_app. reflexivity.
  - intros t payload Hw Hin.
    assert (H : log_build self t build p =
                (Raise (MkExn IOError [payload]),
                 exchanged self t (request (LogBuild build)) p)).
    { apply (perform_raises self t (LogBuild build) p).
      unfold verdict. now rewrite Hw, Hin. }
    rewrite H. split; reflexivity.
Qed.

End RPC_properties.

(** ** Construction of workers *)

Section Construction_properties.
Context {RT : Runtime} {DB : Database} {CONST : Const}.

Lemma init_spec (cfg : config) (c : TheOracle_class) :
  TheOracle_init cfg c =
    (match connect (dsn cfg) with
     | Raise e => Raise e
     | Return d =>
         Return (MkWorker (format_s_d (cls_name c) (instance c + 1)%Z) d
                   [Create; SetHwm 10; Connect ORACLE_QUEUE;
                    Register "handle_db_request"; Send (Raw "READY")] [])
     end,
     MkClass (cls_name c) (instance c + 1)%Z).
Proof.
  unfold TheOracle_init, bind, modify. cbn.
  destruct (connect (dsn cfg)); reflexivity.
Qed.

Lemma handle_appends (received : outcome (list value)) (w : worker) :
  exists q, db_queue (snd (handle_db_request received w)) = db_queue w ++ q.
Proof.
  destruct received as [ps|e].
  - destruct ps as [|a [|m [|d [|x ps]]]];
      try (eexists; unfold handle_db_request; cbn; reflexivity).
    destruct (handle_parsed a m d w) as (st & pl & w1 & Hrun & _ & _ & Hq).
    rewrite Hrun. cbn. eexists. exact Hq.
  - unfold handle_db_request.
    destruct (is_IOError (exn_class e)); eexists; cbn; reflexivity.
Qed.

Lemma serve_appends (events : list (outcome (list value))) :
  forall w, exists q, db_queue (snd (serve events w)) = db_queue w ++ q.
Proof.
  induction events as [|ev events IH]; intros w; cbn.
  - exists []. now rewrite app_nil_r.
  - unfold bind. destruct (handle_appends ev w) as [q1 Hq1].
    destruct (handle_db_request ev w) as [[u|e] w1]; cbn in Hq1 |- *.
    + destruct (IH w1) as [q2 Hq2]. exists (q1 ++ q2).
      now rewrite Hq2, Hq1, app_assoc.
    + now exists q1.
Qed.

(** C7. A worker that was constructed has opened its store connection with
    the configured source name, has connected its queue to the address of
    the oracle queue and registered its handler, and has then sent READY:
    one message, a bare frame that carries neither an operation nor a
    payload, and the last thing the constructor does.  Everything that
    serving requests adds to the queue comes after it. *)
Theorem ready_advertisement (cfg : config) (c c' : TheOracle_class)
  (w : worker) (events : list (outcome (list value))) :
  TheOracle_init cfg c = (Return w, c') ->
  connect (dsn cfg) = Return (db w) /\
  db_queue w = [Create; SetHwm 10; Connect ORACLE_QUEUE;
                Register "handle_db_request"; Send (Raw "READY")] /\
  sent (db_queue w) = [Raw "READY"] /\
  wire_operation (Raw "READY") = None /\
  wire_payload (Raw "READY") = None /\
  exists q, db_queue (snd (serve events w)) = db_queue w ++ q.
Proof.
  rewrite init_spec. intros H.
  destruct (connect (dsn cfg)) as [d|e]; [|discriminate].
  injection H as <- _. cbn [db db_queue sent].
  repeat split. apply (serve_appends events).
Qed.

Lemma append_inj (s x y : string) :
  (s ++ x)%string = (s ++ y)%string -> x = y.
Proof.
  induction s as [|a s IH]; cbn; [trivial|]. intros [= H]. now apply IH.
Qed.

Lemma format_s_d_inj (s : string) (a b : Z) :
  format_s_d s a = format_s_d s b -> a = b.
Proof.
  unfold format_s_d, format_d. intros H.
  apply append_inj in H. injection H as H.
  apply (f_equal NilEmpty.int_of_string) in H.
  rewrite !NilEmpty.isi in H. injection H as H.
  now apply DecimalZ.to_int_inj.
Qed.

Lemma construct_all_spec (cfgs : list config) :
  forall c,
    instance (snd (construct_all cfgs c)) =
      (instance c + Z.of_nat (List.length cfgs))%Z /\
    cls_name (snd (construct_all cfgs c)) = cls_name c /\
    (forall k w, nth_error (fst (construct_all cfgs c)) k = Some (Return w) ->
       name w = format_s_d (cls_name c) (instance c + Z.of_nat k + 1)%Z).
Proof.
  induction cfgs as [|cfg cfgs IH]; intros c.
  - cbn. repeat split; [lia|]. intros [|k] w H; discriminate.
  - cbn [construct_all]. rewrite init_spec.
    specialize (IH (MkClass (cls_name c) (instance c + 1)%Z)).
    destruct (construct_all cfgs _) as [rs c2]. cbn [fst snd] in IH |- *.
    destruct IH as (Hi & Hn & Hk). cbn [instance cls_name] in Hi, Hn, Hk.
    repeat split.
    + rewrite Hi. cbn [List.length]. lia.
    + exact Hn.
    + intros [|k] w H; cbn in H.
      * destruct (connect (dsn cfg)); [|discriminate].
        injection H as <-. cbn. f_equal. lia.
      * rewrite (Hk k w H). f_equal. lia.
Qed.

Lemma names_nth (rs : list (outcome worker)) (n : string) :
  In n (names rs) ->
  exists k w, nth_error rs k = Some (Return w) /\ name w = n.
Proof.
  induction rs as [|[w|e] rs IH]; cbn; [intros []| |].
  - intros [<-|H]; [now exists 0%nat, w|].
    destruct (IH H) as (k & w' & Hk & Hn). now exists (S k), w'.
  - intros H. destruct (IH H) as (k & w' & Hk & Hn). now exists (S k), w'.
Qed.

(** C8. Each construction advances the class counter by one, and the worker
    it makes is named after the base name and the counter's new value: the
    k-th worker made in a process carries the number k (counting from one
    above the counter's starting value), so the numbers grow with every
    construction and no two workers share a name. *)
Theorem worker_identity (cfgs : list config) (c : TheOracle_class) :
  instance (snd (construct_all cfgs c)) =
    (instance c + Z.of_nat (List.length cfgs))%Z /\
  (forall k w, nth_error (fst (construct_all cfgs c)) k = Some (Return w) ->
     name w = format_s_d (cls_name c) (instance c + Z.of_nat k + 1)%Z) /\
  NoDup (names (fst (construct_all cfgs c))).
Proof.
  destruct (construct_all_spec cfgs c) as (Hi & _ & Hk).
  repeat split; [exact Hi|exact Hk|].
  clear Hi Hk. revert c. induction cfgs as [|cfg cfgs IH]; intros c.
  - constructor.
  - cbn [construct_all]. rewrite init_spec.
    pose proof (construct_all_spec cfgs (MkClass (cls_name c) (instance c + 1)%Z))
      as (_ & _ & Hk).
    specialize (IH (MkClass (cls_name c) (instance c + 1)%Z)).
    destruct (construct_all cfgs _) as [rs c2]. cbn [fst snd] in *.
    destruct (connect (dsn cfg)) as [d|e]; cbn [names]; [|exact IH].
    constructor; [|exact IH]. cbn [name]. intros HIn.
    destruct (names_nth _ _ HIn) as (k & w & Hnth & Hname).
    rewrite (Hk k w Hnth) in Hname. cbn [cls_name instance] in Hname.
    apply format_s_d_inj in Hname. lia.
Qed.

End Construction_properties.

(** ** Concrete runs

    The statements above at the sample runtime and store. *)

(** A two-part message makes the unpacking raise [ValueError], which the
    handler does not catch: the exception leaves the handler, nothing is
    logged and nothing is sent. *)
Lemma malformed_message_escapes :
  handle_db_request (RT := Sample.runtime) (DB := Sample.store)
    (Return [VBytes "client-1"; VStr "NEWPKG"]) Sample.worker0 =
    (Raise (MkExn ValueError [VStr "error"]),
     @MkWorker Sample.store "master.the_oracle_1" (Sample.MkJournal [] None)
       [Recv (Return [VBytes "client-1"; VStr "NEWPKG"])] []).
Proof. reflexivity. Qed.

Lemma receive_failure_witness :
  handle_db_request (RT := Sample.runtime) (DB := Sample.store)
    (Raise (MkExn IOError [VStr "Interrupted system call"])) Sample.worker0 =
    (Return tt,
     @MkWorker Sample.store "master.the_oracle_1" (Sample.MkJournal [] None)
       [Recv (Raise (MkExn IOError [VStr "Interrupted system call"]))]
       [LogException (MkExn IOError [VStr "Interrupted system call"])]).
Proof.
  exact (proj1 (receive_failure (RT := Sample.runtime) (DB := Sample.store)
                  (MkExn IOError [VStr "Interrupted system call"])
                  Sample.worker0 eq_refl)).
Defined.



Lemma unknown_operation_witness :
  exists exc,
    sent (db_queue (snd
      (handle_db_request (RT := Sample.runtime) (DB := Sample.store)
         (Return [VBytes "client-1"; VStr "NOSUCHOP"; VList []])
         Sample.worker0))) =
      [AddrMsg (VBytes "client-1") (VStr "ERROR")
         (VStr (str_exn (RT := Sample.runtime) exc))].
Proof.
  destruct (unknown_operation (RT := Sample.runtime) (DB := Sample.store)
              (VBytes "client-1") (msg := VStr "NOSUCHOP") (VList [])
              Sample.worker0) as (exc & H & _).
  - intros s [= <-]. cbn. intros H.
    repeat (destruct H as [H|H]; [discriminate|]). exact H.
  - exists exc. rewrite H. reflexivity.
Defined.

Lemma backpressure_witness :
  perform (RT := Sample.runtime) 0 (MkExchange false (VNone, VNone))
    (AddNewPackage (VStr "foo") VNone) Sample.process0 =
    (Raise EAGAIN,
     MkProcess None
       [[Refused (Msg (VStr "NEWPKG") (VList [VStr "foo"; VNone]))]; []] []).
Proof.
  exact (proj1 (backpressure (RT := Sample.runtime) 0
                  (MkExchange false (VNone, VNone))
                  (AddNewPackage (VStr "foo") VNone) Sample.process0
                  eq_refl)).
Defined.

Lemma log_build_stamps_witness :
  exists w' p',
    round_trip (RT := Sample.runtime) (DB := Sample.store)
      (VBytes "client-1") 0 (LogBuild Sample.build0)
      Sample.worker0 Sample.process0 =
      Some ((Return VNone, p'), (Return tt, w')) /\
    sent (db_queue w') =
      sent (db_queue Sample.worker0) ++
        [AddrMsg (VBytes "client-1") (VStr "OK") (VInt 1)] /\
    calls p' = calls Sample.process0 ++
                 [MkCall Sample.build0 "logged" [VInt 1]].
Proof.
  exact (proj1 (log_build_stamps (RT := Sample.runtime) (DB := Sample.store)
                  (VBytes "client-1") 0 Sample.build0 Sample.worker0
                  Sample.process0
                  (r := VNone) (stamped := Sample.stamp Sample.build0 1)
                  (id := VInt 1) (rest := [])
                  (c' := Sample.MkJournal
                           [("log_build", [Sample.build0])] None)
                  eq_refl eq_refl)).
Defined.

Lemma ready_advertisement_witness :
  sent (db_queue (snd (serve (RT := Sample.runtime) (DB := Sample.store) []
    (@MkWorker Sample.store "master.the_oracle_1" (Sample.MkJournal [] None)
       [Create; SetHwm 10; Connect (VStr "inproc://the-oracle");
        Register "handle_db_request"; Send (Raw "READY")] [])))) =
    [Raw "READY"].
Proof.
  destruct (ready_advertisement (RT := Sample.runtime) (DB := Sample.store)
              (CONST := Sample.const)
              (MkConfig (VStr "postgres:///piwheels")) TheOracle
              (c' := MkClass "master.the_oracle" 1)
              (w := @MkWorker Sample.store "master.the_oracle_1"
                      (Sample.MkJournal [] None)
                      [Create; SetHwm 10; Connect (VStr "inproc://the-oracle");
                       Register "handle_db_request"; Send (Raw "READY")] [])
              [] eq_refl) as (_ & _ & H & _).
  exact H.
Defined.

(** Registering a package end to end: the store's answer comes back. *)
Example register_package_foo :
  exists w' p',
    round_trip (RT := Sample.runtime) (DB := Sample.store)
      (VBytes "client-1") 0 (AddNewPackage (VStr "foo") VNone)
      Sample.worker0 Sample.process0 =
      Some ((Return (VBool true), p'), (Return tt, w')) /\
    Sample.entries (db w') = [("add_new_package", [VStr "foo"])].
Proof. do 2 eexists. split; reflexivity. Qed.

(** * Further properties of the worker *)

Section Worker_extras.
Context {RT : Runtime} {DB : Database}.

Lemma str_interp_exn (c : exc_class) (ie : interp_error) :
  str_method_of c = StrBase -> str_exn (interp_exn c ie) = interp_text ie.
Proof. intros H. unfold str_exn, interp_exn. cbn. now rewrite H. Qed.

(** X1. The reply and the log agree: a request that was received whole is
    answered [OK] with nothing logged, or [ERROR] with the description of an
    exception and exactly one error entry that names the operation. *)
Theorem reply_matches_log (address msg data : value) (w : worker) :
  exists status payload,
    sent (db_queue (snd (handle_db_request (Return [address; msg; data]) w)))
      = sent (db_queue w) ++ [AddrMsg address status payload] /\
    ((status = VStr "OK" /\
      logger (snd (handle_db_request (Return [address; msg; data]) w))
        = logger w) \/
     (status = VStr "ERROR" /\
      (exists exc, payload = VStr (str_exn exc)) /\
      logger (snd (handle_db_request (Return [address; msg; data]) w))
        = logger w ++ [LogError "Error handling db request: %s" msg])).
Proof.
  unfold handle_db_request. cbn [unpack3].
  set (w1 := snd (queue_event (Recv (Return [address; msg; data])) w)).
  pose proof (frames_dispatch msg data w1) as (_ & Hq & Hl).
  destruct ((h <- lookup_handler msg ;; call_star h data) w1) as [[r|e] w2];
    cbn in Hq, Hl |- *.
  - exists (VStr "OK"), r. rewrite Hq, Hl, !sent_app. cbn.
    rewrite app_nil_r. auto.
  - exists (VStr "ERROR"), (VStr (str_exn e)). rewrite Hq, Hl, !sent_app. cbn.
    rewrite app_nil_r. split; [reflexivity|]. right. eauto.
Qed.

(** The handler of an operation makes the one store call that the table
    gives, and nothing it does afterwards touches the store. *)
Lemma handler_store_state (op : string) (args : list value) (m : string)
  (margs : list value) :
  store_request op args = Some (m, margs) ->
  exists h, assoc op handlers = Some h /\
            forall w, db (snd (snd h args w)) = snd (db_call m margs (db w)).
Proof.
  intros H. unfold store_request in H. cbn [assoc store_methods] in H.
  repeat match type of H with
         | context [String.eqb op ?k] =>
             let E := fresh "E" in
             destruct (String.eqb op k) eqn:E;
             [apply String.eqb_eq in E; subst op|]
         end; try discriminate;
    (eexists; split; [reflexivity|]);
    destruct args as [|? [|? [|? [|? [|? ?]]]]]; cbn in H; try discriminate;
    injection H as <- <-; intros w; cbn;
    unfold call_db, bind, db_invoke, lift, ret;
    destruct (db_call _ _ (db w)) as [[[r a]|e] c]; cbn; try reflexivity;
    repeat match goal with
           | |- context [match ?x with _ => _ end] => destruct x
           end; reflexivity.
Qed.

(** X2. A request for a recognised operation with the right number of
    arguments costs the store exactly one call, the one the operation
    stands for: the store is left as that call leaves it, whether the reply
    turns out [OK] or [ERROR]. *)
Theorem one_store_call (address : value) (op : string) (data : value)
  (args : list value) (m : string) (margs : list value) (w : worker) :
  iterate data = Some args ->
  store_request op args = Some (m, margs) ->
  db (snd (handle_db_request (Return [address; VStr op; data]) w)) =
    snd (db_call m margs (db w)).
Proof.
  intros Hit Hreq.
  destruct (handler_store_state op args Hreq) as (h & Hh & Hdb).
  rewrite (handle_known address op data w Hh Hit). cbn. now rewrite Hdb.
Qed.

Lemma catalog_has_handler (op : string) :
  In op catalog -> exists h, assoc op (handlers (RT:=RT) (DB:=DB)) = Some h.
Proof.
  intros H. cbn in H.
  repeat (destruct H as [<-|H]; [eexists; reflexivity|]). contradiction.
Qed.

(** A recognised operation called with a number of arguments that its
    handler does not take raises [TypeError] before the store is reached. *)
Lemma bad_args_raise (op : string) (args : list value) :
  In op catalog ->
  store_request op args = None ->
  exists h ie, assoc op (handlers (RT:=RT) (DB:=DB)) = Some h /\
               forall w, snd h args w = (Raise (interp_exn TypeError ie), w).
Proof.
  intros Hin H. cbn in Hin. unfold store_request in H.
  repeat (destruct Hin as [<-|Hin];
          [destruct args as [|? [|? [|? [|? [|? ?]]]]]; cbn in H;
           try discriminate;
           (do 2 eexists; split; [reflexivity|intros w; reflexivity])|]).
  contradiction.
Qed.

Lemma handle_not_iterable (address : value) (op : string) (data : value)
  (h : string * handler) (w : worker) :
  assoc op handlers = Some h ->
  iterate data = None ->
  handle_db_request (Return [address; VStr op; data]) w =
    (Return tt,
     MkWorker (name w) (db w)
       (db_queue w ++
          [Recv (Return [address; VStr op; data]);
           Send (AddrMsg address (VStr "ERROR")
                   (VStr (interp_text (StarNotIterable (fst h) data))))])
       (logger w ++ [LogError "Error handling db request: %s" (VStr op)])).
Proof.
  intros Hh Hit. unfold handle_db_request. cbn [unpack3].
  unfold bind, lookup_handler. cbn [hashable]. rewrite Hh.
  unfold ret, call_star. rewrite Hit. cbn.
  unfold send_addr_msg, queue_event, modify. cbn.
  now rewrite <- app_assoc.
Qed.

(** X3. Arguments that do not fit a recognised operation never reach the
    store: when the data cannot be unpacked, or unpacks to a number of
    arguments that the handler does not take, the call raises [TypeError],
    the store is untouched and the reply is [ERROR] with the interpreter's
    message. *)
Theorem bad_arguments_spare_the_store (address : value) (op : string)
  (data : value) (w : worker) :
  In op catalog ->
  (forall args, iterate data = Some args -> store_request op args = None) ->
  exists ie,
    handle_db_request (Return [address; VStr op; data]) w =
      (Return tt,
       MkWorker (name w) (db w)
         (db_queue w ++
            [Recv (Return [address; VStr op; data]);
             Send (AddrMsg address (VStr "ERROR") (VStr (interp_text ie)))])
         (logger w ++ [LogError "Error handling db request: %s" (VStr op)])).
Proof.
  intros Hin Hbad. destruct (iterate data) as [args|] eqn:Hit.
  - destruct (@bad_args_raise op args Hin (Hbad args eq_refl))
      as (h & ie & Hh & Hrun).
    exists ie. rewrite (handle_known address op data w Hh Hit). cbn zeta.
    rewrite Hrun. cbn. rewrite <- app_assoc. reflexivity.
  - destruct (@catalog_has_handler op Hin) as [h Hh].
    eexists. apply (@handle_not_iterable address op data h w Hh Hit).
Qed.

(** X4. A receive that does not give exactly three parts has no effect
    beyond the log: the store is not touched and nothing is sent, whether
    the handler then returns or lets the exception go. *)
Theorem unparsed_receive_has_no_effect (received : outcome (list value))
  (w : worker) :
  (forall a m d, received <> Return [a; m; d]) ->
  db (snd (handle_db_request received w)) = db w /\
  sent (db_queue (snd (handle_db_request received w))) = sent (db_queue w) /\
  name (snd (handle_db_request received w)) = name w.
Proof.
  intros H. unfold handle_db_request.
  destruct received as [ps|e].
  - destruct ps as [|a [|m [|d [|x ps]]]]; cbn; rewrite ?sent_app; cbn;
      rewrite ?app_nil_r; auto.
    exfalso. now apply (H a m d).
  - destruct (is_IOError (exn_class e)); cbn; rewrite sent_app; cbn;
      rewrite app_nil_r; auto.
Qed.

(** X5. The payload for an operation name that has no handler is the
    [repr] of the name, as [str] of a [KeyError] gives it, not the bare
    name. *)
Theorem unknown_operation_payload (address : value) (s : string)
  (data : value) (w : worker) :
  ~ In s catalog ->
  handle_db_request (Return [address; VStr s; data]) w =
    (Return tt,
     MkWorker (name w) (db w)
       (db_queue w ++
          [Recv (Return [address; VStr s; data]);
           Send (AddrMsg address (VStr "ERROR") (VStr (py_repr (VStr s))))])
       (logger w ++ [LogError "Error handling db request: %s" (VStr s)])).
Proof.
  intros H. unfold handle_db_request. cbn [unpack3].
  unfold bind, lookup_handler. cbn [hashable].
  rewrite (assoc_None s (handlers (RT:=RT) (DB:=DB))) by exact H.
  cbn. unfold send_addr_msg, queue_event, modify. cbn.
  now rewrite <- app_assoc.
Qed.

End Worker_extras.

(** * Further properties of the client *)

Section Client_extras.
Context {RT : Runtime}.

Ltac unfold_methods :=
  unfold add_new_package, add_new_package_version, skip_package,
    skip_package_version, test_package_version, log_download, log_build,
    get_build_abis, get_pypi_serial, set_pypi_serial, get_all_packages,
    get_all_package_versions, get_downloads_recent, get_package_files,
    get_project_versions, get_project_files, get_version_files,
    get_version_skip, get_file_dependencies, delete_build, bind.

(** X8. A method returns only on a reply whose status is the string
    ['OK']: with the send refused, or with any other status (another
    string, bytes, [None]), it raises. *)
Theorem only_OK_returns (self : nat) (t : exchange) (c : call) (p : process)
  (v : value) :
  fst (perform self t c p) = Return v ->
  writable t = true /\ fst (incoming t) = VStr "OK".
Proof.
  intros H. destruct (verdict t) as [r|e] eqn:V.
  - unfold verdict in V. destruct (writable t); [|discriminate].
    split; [reflexivity|].
    destruct (fst (incoming t)); try discriminate. cbn in V.
    destruct (String.eqb s "OK") eqn:E; [|discriminate].
    apply String.eqb_eq in E. now subst.
  - rewrite (perform_raises self t c p V) in H. discriminate.
Qed.

Lemma update_nth_other {A} (n j : nat) (f : A -> A) (l : list A) :
  j <> n -> nth_error (update_nth n f l) j = nth_error l j.
Proof.
  revert n j. induction l as [|x l IH]; intros [|n] [|j] H; cbn;
    try reflexivity; [contradiction|]. apply IH. congruence.
Qed.

Lemma update_nth_length {A} (n : nat) (f : A -> A) (l : list A) :
  List.length (update_nth n f l) = List.length l.
Proof.
  revert n. induction l as [|x l IH]; intros [|n]; cbn; auto.
Qed.

(** X9. What a method leaves alone: only [get_statistics] can change the
    class attribute [stats_type], only [log_build] calls anything on an
    object of the caller, and a call on one instance never touches the
    socket of another nor creates one. *)
Theorem client_frame (self : nat) (t : exchange) (c : call) (p : process) :
  (c <> GetStatistics ->
   stats_type (snd (perform self t c p)) = stats_type p) /\
  ((forall build, c <> LogBuild build) ->
   calls (snd (perform self t c p)) = calls p) /\
  (forall j, j <> self ->
     nth_error (sockets (snd (perform self t c p))) j =
       nth_error (sockets p) j) /\
  List.length (sockets (snd (perform self t c p))) = List.length (sockets p).
Proof.
  repeat split.
  - intros Hc. destruct c; try contradiction; cbn [perform]; unfold_methods;
      rewrite execute_spec; destruct (verdict t); reflexivity.
  - intros Hc. destruct c; try (now exfalso; eapply Hc); cbn [perform];
      try (unfold_methods; rewrite execute_spec; destruct (verdict t);
           reflexivity).
    destruct (stats_type p) as [fields|] eqn:E.
    + now rewrite (get_statistics_pinned self t p E).
    + rewrite (get_statistics_fresh self t p E). cbn zeta.
      destruct (verdict t) as [rec|e]; [|reflexivity].
      destruct (pairs_of rec) as [kvs|e]; [|reflexivity].
      destruct (namedtuple (map fst kvs)); reflexivity.
  - intros j Hj. rewrite perform_sockets. cbn. now apply update_nth_other.
  - rewrite perform_sockets. cbn. apply update_nth_length.
Qed.

(** X10. The methods that end without a [return] give [None] on every [OK]
    reply, whatever payload the reply carries. *)
Theorem discarded_results (self : nat) (t : exchange) (c : call)
  (p : process) :
  returns_nothing c = true ->
  writable t = true ->
  fst (incoming t) = VStr "OK" ->
  perform self t c p = (Return VNone, exchanged self t (request c) p).
Proof.
  intros Hc Hw Hok.
  assert (V : verdict t = Return (snd (incoming t))).
  { unfold verdict. now rewrite Hw, Hok. }
  destruct c; try discriminate; cbn [perform]; unfold_methods;
    rewrite execute_spec, V; reflexivity.
Qed.

End Client_extras.

(** * Further properties of the statistics *)

Section Statistics_extras.
Context {RT : Runtime} {DB : Database}.

Lemma pairs_of_items (l : list (value * value)) :
  pairs_of (VList (map (fun kv => VTuple [fst kv; snd kv]) l)) = Return l.
Proof.
  unfold pairs_of. cbn [iterate].
  induction l as [|[k v] l IH]; [reflexivity|].
  cbn. cbn in IH. now rewrite IH.
Qed.

Lemma mem_In (k : string) (l : list string) : mem k l = true <-> In k l.
Proof.
  unfold mem. rewrite existsb_exists. split.
  - intros (x & Hx & E). apply String.eqb_eq in E. now subst.
  - intros H. exists k. split; [exact H|apply String.eqb_refl].
Qed.

Lemma check_fields_ok (names : list string) :
  forall seen,
    NoDup names ->
    (forall n, In n names -> ~ In n seen) ->
    Forall (fun n => starts_with_underscore n = false) names ->
    check_fields seen names = Return tt.
Proof.
  induction names as [|n names IH]; intros seen Hnd Hdis Hu; [reflexivity|].
  cbn. inversion Hu as [|? ? Hn Hrest]; subst. rewrite Hn.
  destruct (mem n seen) eqn:E.
  - apply mem_In in E. exfalso. apply (Hdis n); [now left|exact E].
  - inversion Hnd as [|? ? Hnotin Hnd']; subst. apply IH; auto.
    intros n' Hin [<-|Hs]; [contradiction|].
    apply (Hdis n'); [now right|exact Hs].
Qed.

Lemma row_names (fields : list (string * value)) :
  map py_str (map fst (row fields)) = map fst fields.
Proof.
  unfold row. induction fields as [|[f v] fields IH]; cbn; [reflexivity|].
  now rewrite IH.
Qed.

Lemma namedtuple_row (fields : list (string * value)) :
  NoDup (map fst fields) ->
  Forall (fun f => valid_identifier f = true /\
                   starts_with_underscore f = false) (map fst fields) ->
  namedtuple (map fst (row fields)) = Return (map fst fields).
Proof.
  intros Hnd Hv. unfold namedtuple. rewrite row_names.
  destruct (find _ (map fst fields)) as [n|] eqn:E.
  - apply find_some in E. destruct E as [Hin Hn].
    rewrite Forall_forall in Hv. destruct (Hv n Hin) as [Hvalid _].
    rewrite Hvalid in Hn. discriminate.
  - rewrite check_fields_ok; auto.
    eapply Forall_impl; [|exact Hv]. now intros a [_ H].
Qed.

Lemma dict_set_fresh (k : string) (v : value) (d : list (string * value)) :
  ~ In k (map fst d) -> dict_set k v d = d ++ [(k, v)].
Proof.
  induction d as [|[k' v'] d IH]; cbn; [reflexivity|]. intros H.
  destruct (String.eqb k k') eqn:E.
  - apply String.eqb_eq in E. subst. exfalso. apply H. now left.
  - rewrite IH; [reflexivity|]. intros Hin. apply H. now right.
Qed.

Lemma keywords_row (fields : list (string * value)) :
  forall d,
    NoDup (map fst fields) ->
    (forall f, In f (map fst fields) -> ~ In f (map fst d)) ->
    keywords d (row fields) = Return (d ++ fields).
Proof.
  induction fields as [|[f v] fields IH]; intros d Hnd Hdis; cbn.
  - now rewrite app_nil_r.
  - inversion Hnd as [|? ? Hnotin Hnd']; subst.
    rewrite dict_set_fresh by (apply Hdis; now left).
    rewrite IH; auto.
    + now rewrite <- app_assoc.
    + intros f' Hin. rewrite map_app, in_app_iff. cbn.
      intros [H|[<-|[]]]; [|contradiction].
      apply (Hdis f'); [now right|exact H].
Qed.

Lemma kwargs_row (fields : list (string * value)) :
  NoDup (map fst fields) -> kwargs (row fields) = Return fields.
Proof.
  intros Hnd. unfold kwargs.
  destruct (find _ (row fields)) as [kv|] eqn:E.
  - apply find_some in E. destruct E as [Hin Hh]. unfold row in Hin.
    apply in_map_iff in Hin. destruct Hin as (fv & <- & _). discriminate.
  - now rewrite (keywords_row fields [] Hnd) by (intros f _ []).
Qed.

Lemma assoc_NoDup (fields : list (string * value)) (f : string) (v : value) :
  NoDup (map fst fields) -> In (f, v) fields -> assoc f fields = Some v.
Proof.
  induction fields as [|[f' v'] fields IH]; cbn; [intros _ []|].
  intros Hnd [[= -> ->]|Hin].
  - now rewrite String.eqb_refl.
  - inversion Hnd as [|? ? Hnotin Hnd']; subst.
    destruct (String.eqb f f') eqn:E.
    + apply String.eqb_eq in E. subst. exfalso. apply Hnotin.
      apply in_map_iff. now exists (f', v).
    + now apply IH.
Qed.

Lemma collect_sub (d sub : list (string * value)) :
  (forall f v, In (f, v) sub -> assoc f d = Some v) ->
  collect d (map fst sub) = Some (map snd sub).
Proof.
  induction sub as [|[f v] sub IH]; intros H; cbn; [reflexivity|].
  rewrite (H f v) by now left. rewrite IH; [reflexivity|].
  intros f' v' Hin. apply H. now right.
Qed.

Lemma construct_row (fields : list (string * value)) :
  NoDup (map fst fields) ->
  construct (map fst fields) fields =
    Return (VNamedTuple "Statistics" (map fst fields) (map snd fields)).
Proof.
  intros Hnd. unfold construct.
  destruct (find _ fields) as [kv|] eqn:E.
  - apply find_some in E. destruct E as [Hin Hm].
    assert (Hk : mem (fst kv) (map fst fields) = true)
      by (apply mem_In; now apply in_map).
    rewrite Hk in Hm. discriminate.
  - rewrite collect_sub; [reflexivity|].
    intros f v Hin. now apply assoc_NoDup.
Qed.

(** X6. Statistics survive the trip from [do_getstats] to
    [get_statistics]: when the store's row has distinct field names that
    are valid identifiers without a leading underscore, the handler returns
    its items as pairs, and a client whose class attribute is unset, or set
    to these very fields, decodes that payload into a structure with the
    same fields in the same order and the same values, and the class
    attribute then holds these fields. *)
Theorem statistics_round_trip (self : nat) (fields : list (string * value))
  (w : worker) (p : process) (after : list value) (c' : conn) :
  NoDup (map fst fields) ->
  Forall (fun f => valid_identifier f = true /\
                   starts_with_underscore f = false) (map fst fields) ->
  db_call "get_statistics" [] (db w) = (Return (VDict (row fields), after), c') ->
  stats_type p = None \/ stats_type p = Some (map fst fields) ->
  exists payload,
    fst (do_getstats [] w) = Return payload /\
    fst (get_statistics self (MkExchange true (VStr "OK", payload)) p) =
      Return (VNamedTuple "Statistics" (map fst fields) (map snd fields)) /\
    stats_type (snd (get_statistics self
                       (MkExchange true (VStr "OK", payload)) p)) =
      Some (map fst fields).
Proof.
  intros Hnd Hv Hdb Hst. eexists. split.
  - cbn [do_getstats]. unfold call_db, bind, db_invoke. rewrite Hdb.
    reflexivity.
  - destruct Hst as [Hst|Hst].
    + rewrite (get_statistics_fresh self _ p Hst). cbn zeta.
      unfold verdict. cbn [writable incoming fst snd is_OK String.eqb].
      cbn [Ascii.eqb Bool.eqb]. rewrite pairs_of_items.
      rewrite (@namedtuple_row fields Hnd Hv).
      rewrite (@kwargs_row fields Hnd), (@construct_row fields Hnd). cbn. auto.
    + rewrite (get_statistics_pinned self _ p Hst).
      unfold verdict. cbn [writable incoming fst snd is_OK String.eqb].
      cbn [Ascii.eqb Bool.eqb].
      rewrite (keyword_dict_eq _ (pairs_of_items (row fields))).
      rewrite (@kwargs_row fields Hnd), (@construct_row fields Hnd). cbn. auto.
Qed.

Lemma keywords_total (kvs : list (value * value)) :
  (forall k v, In (k, v) kvs -> exists f, k = VStr f) ->
  forall d, exists d', keywords d kvs = Return d'.
Proof.
  induction kvs as [|[k v] kvs IH]; intros H d; cbn; [now exists d|].
  destruct (H k v) as [f ->]; [now left|].
  apply IH. intros k' v' Hin. apply (H k' v'). now right.
Qed.

Lemma kwargs_keywords (kvs : list (value * value)) :
  (forall k v, In (k, v) kvs -> exists f, k = VStr f) ->
  exists d, kwargs kvs = Return d /\ keywords [] kvs = Return d.
Proof.
  intros H. unfold kwargs.
  destruct (find _ kvs) as [[k v]|] eqn:E.
  - apply find_some in E. destruct E as [Hin Hh].
    destruct (H k v Hin) as [f ->]. discriminate.
  - destruct (keywords_total kvs H []) as [d Hd]. exists d. now rewrite Hd.
Qed.

Lemma field_value_in (k : string) (v : value) (kvs : list (value * value)) :
  In (VStr k, v) kvs -> field_value k kvs <> None.
Proof.
  induction kvs as [|[k0 v0] kvs IH]; [intros []|].
  intros [[= -> ->]|Hin]; cbn.
  - destruct (field_value k kvs); [discriminate|].
    rewrite String.eqb_refl. discriminate.
  - specialize (IH Hin).
    destruct k0; try exact IH.
    destruct (field_value k kvs); [discriminate|contradiction].
Qed.

Lemma field_value_none (f : string) (kvs : list (value * value)) :
  (forall v, ~ In (VStr f, v) kvs) -> field_value f kvs = None.
Proof.
  induction kvs as [|[k0 v0] kvs IH]; intros H; [reflexivity|].
  assert (IH' : field_value f kvs = None).
  { apply IH. intros v Hin. apply (H v). now right. }
  cbn. destruct k0; try exact IH'. rewrite IH'.
  destruct (String.eqb f s) eqn:E; [|reflexivity].
  apply String.eqb_eq in E. subst. exfalso. apply (H v0). now left.
Qed.

Lemma field_value_some_in (f : string) (v : value)
  (kvs : list (value * value)) :
  field_value f kvs = Some v -> In (VStr f, v) kvs.
Proof.
  induction kvs as [|[k0 v0] kvs IH]; [discriminate|]. cbn.
  destruct k0; try (intros H; right; now apply IH).
  destruct (field_value f kvs) as [v'|].
  - intros [= ->]. right. now apply IH.
  - destruct (String.eqb f s) eqn:E; [|discriminate].
    apply String.eqb_eq in E. subst. intros [= ->]. now left.
Qed.

Lemma assoc_of_In {A} (k : string) (a : A) (l : list (string * A)) :
  In (k, a) l -> assoc k l <> None.
Proof.
  induction l as [|[k' a'] l IH]; [intros []|]. cbn.
  intros [[= -> ->]|Hin].
  - rewrite String.eqb_refl. discriminate.
  - destruct (String.eqb k k'); [discriminate|now apply IH].
Qed.

Lemma find_exists {A} (f : A -> bool) (l : list A) (x : A) :
  In x l -> f x = true -> exists y, find f l = Some y /\ f y = true.
Proof.
  intros Hin Hx. destruct (find f l) as [y|] eqn:E.
  - exists y. split; [reflexivity|]. now apply find_some in E.
  - rewrite (find_none _ _ E _ Hin) in Hx. discriminate.
Qed.

Lemma collect_none (d : list (string * value)) (fields : list string)
  (f : string) :
  In f fields -> assoc f d = None -> collect d fields = None.
Proof.
  induction fields as [|f0 fields IH]; [intros []|].
  intros [->|Hin] Hf; cbn.
  - now rewrite Hf.
  - rewrite (IH Hin Hf). now destruct (assoc f0 d).
Qed.

(** X7. Once the class is built, a reply that carries a field name outside
    it is not decoded: the call raises [TypeError] for an unexpected
    keyword, returns no structure, and leaves the class as it was. *)
Theorem statistics_unexpected_field (self : nat) (t : exchange) (p : process)
  (fields : list string) (rec : value) (kvs : list (value * value))
  (k : string) (v : value) :
  stats_type p = Some fields ->
  writable t = true ->
  incoming t = (VStr "OK", rec) ->
  pairs_of rec = Return kvs ->
  (forall k' v', In (k', v') kvs -> exists f, k' = VStr f) ->
  In (VStr k, v) kvs ->
  mem k fields = false ->
  exists k',
    get_statistics self t p =
      (Raise (interp_exn TypeError (UnexpectedKeyword k')),
       exchanged self t (Msg (VStr "GETSTATS") VNone) p) /\
    mem k' fields = false.
Proof.
  intros Hst Hw Hin Hp Hkeys Hk Hm.
  rewrite (get_statistics_pinned self t p Hst).
  unfold verdict. rewrite Hw, Hin. cbn [fst snd is_OK].
  change (String.eqb "OK" "OK") with true. cbn iota.
  rewrite (keyword_dict_eq rec Hp).
  destruct (kwargs_keywords kvs Hkeys) as (d & Hd & Hkw). rewrite Hd.
  destruct (keywords_spec _ _ Hkw) as [_ Hv].
  assert (Hind : exists v', In (k, v') d).
  { specialize (Hv k). pose proof (field_value_in k v kvs Hk) as Hne.
    destruct (field_value k kvs) as [v'|]; [|contradiction].
    exists v'. now apply assoc_In. }
  destruct Hind as [v' Hind]. unfold construct.
  destruct (find_exists (fun kv => negb (mem (fst kv) fields)) d (k, v') Hind)
    as ([k' v''] & Hfind & Hk'); [cbn; now rewrite Hm|].
  rewrite Hfind. exists k'. split; [reflexivity|].
  cbn in Hk'. now destruct (mem k' fields).
Qed.

(** X11. Once the class is built, a reply that lacks one of its fields is
    not decoded either: when every name of the reply is a field but some
    field has no pair, the call raises [TypeError] for the missing
    arguments, among them that field. *)
Theorem statistics_missing_field (self : nat) (t : exchange) (p : process)
  (fields : list string) (rec : value) (kvs : list (value * value))
  (f : string) :
  stats_type p = Some fields ->
  writable t = true ->
  incoming t = (VStr "OK", rec) ->
  pairs_of rec = Return kvs ->
  (forall k v, In (k, v) kvs -> exists f', k = VStr f' /\ mem f' fields = true) ->
  In f fields ->
  (forall v, ~ In (VStr f, v) kvs) ->
  exists missing,
    get_statistics self t p =
      (Raise (interp_exn TypeError (MissingArguments missing)),
       exchanged self t (Msg (VStr "GETSTATS") VNone) p) /\
    In f missing.
Proof.
  intros Hst Hw Hin Hp Hkeys Hf Hno.
  rewrite (get_statistics_pinned self t p Hst).
  unfold verdict. rewrite Hw, Hin. cbn [fst snd is_OK].
  change (String.eqb "OK" "OK") with true. cbn iota.
  rewrite (keyword_dict_eq rec Hp).
  assert (Hstr : forall k v, In (k, v) kvs -> exists f', k = VStr f').
  { intros k v H. destruct (Hkeys k v H) as (f' & -> & _). now exists f'. }
  destruct (kwargs_keywords kvs Hstr) as (d & Hd & Hkw). rewrite Hd.
  destruct (keywords_spec _ _ Hkw) as [_ Hv].
  assert (Hd_in : forall k v, In (k, v) d -> exists v', In (VStr k, v') kvs).
  { intros k v H. apply assoc_of_In in H. rewrite Hv in H. cbn in H.
    destruct (field_value k kvs) as [v'|] eqn:E; [|contradiction].
    exists v'. now apply field_value_some_in. }
  assert (Hfd : assoc f d = None).
  { rewrite Hv. now rewrite (field_value_none f kvs Hno). }
  unfold construct.
  destruct (find _ d) as [[k v]|] eqn:E.
  - apply find_some in E. destruct E as [Hind Hm]. cbn in Hm.
    destruct (Hd_in k v Hind) as [v' Hkv].
    destruct (Hkeys _ _ Hkv) as (f' & [= <-] & Hmem).
    rewrite Hmem in Hm. discriminate.
  - rewrite (collect_none d fields f Hf Hfd).
    eexists. split; [reflexivity|].
    apply filter_In. split; [exact Hf|].
    destruct (mem f (map fst d)) eqn:Em; [|reflexivity].
    apply mem_In in Em. apply in_map_iff in Em.
    destruct Em as ([k v] & Hk & Hind). cbn in Hk. subst k.
    apply assoc_of_In in Hind. contradiction.
Qed.

End Statistics_extras.

(** * Further properties of worker and client together *)

Section EndToEnd_extras.
Context {RT : Runtime} {DB : Database}.



Lemma handler_returns (c : call) (args : list value) (m : string)
  (margs : list value) (r : value) (after : list value) (c' : conn)
  (w : worker) :
  (passes_result c || returns_nothing c)%bool = true ->
  arguments_of c = VList args ->
  store_request (operation c) args = Some (m, margs) ->
  db_call m margs (db w) = (Return (r, after), c') ->
  exists h,
    assoc (operation c) handlers = Some h /\
    snd h args w =
      (Return (if returns_nothing c then VNone else r),
       MkWorker (name w) c' (db_queue w) (logger w)).
Proof.
  intros Hc Hargs Hreq Hdb.
  destruct c; try discriminate; cbn in Hargs; injection Hargs as <-;
    cbn in Hreq; injection Hreq as <- <-;
    (eexists; split; [reflexivity|]); cbn;
    unfold call_db, bind, db_invoke; rewrite Hdb; reflexivity.
Qed.

Lemma client_returns (self : nat) (t : exchange) (c : call) (p : process) :
  (passes_result c || returns_nothing c)%bool = true ->
  writable t = true ->
  fst (incoming t) = VStr "OK" ->
  perform self t c p =
    (Return (if returns_nothing c then VNone else snd (incoming t)),
     exchanged self t (request c) p).
Proof.
  intros Hc Hw Hok.
  assert (V : verdict t = Return (snd (incoming t))).
  { unfold verdict. now rewrite Hw, Hok. }
  destruct c; try discriminate; cbn [perform returns_nothing];
    unfold add_new_package, add_new_package_version, skip_package,
      skip_package_version, test_package_version, log_download,
      set_pypi_serial, get_version_skip, get_file_dependencies, delete_build,
      bind;
    rewrite execute_spec, V; reflexivity.
Qed.

(** X13. For the methods whose handler hands the arguments to the store
    and either returns its result or returns nothing, a call served by a
    worker is a call of the store: the store is left as its method leaves
    it, nothing is logged, and the caller gets the store's result, or
    [None] from the methods that return nothing. *)
Theorem round_trip_result (address : value) (self : nat) (c : call)
  (args : list value) (m : string) (margs : list value) (r : value)
  (after : list value) (c' : conn) (w : worker) (p : process) :
  (passes_result c || returns_nothing c)%bool = true ->
  arguments_of c = VList args ->
  store_request (operation c) args = Some (m, margs) ->
  db_call m margs (db w) = (Return (r, after), c') ->
  exists w' p',
    round_trip address self c w p =
      Some ((Return (if returns_nothing c then VNone else r), p'),
            (Return tt, w')) /\
    db w' = c' /\
    logger w' = logger w.
Proof.
  intros Hc Hargs Hreq Hdb.
  pose (w1 := MkWorker (name w) (db w)
                (db_queue w ++
                   [Recv (Return [address; VStr (operation c);
                                  arguments_of c])])
                (logger w)).
  destruct (@handler_returns c args m margs r after c' w1 Hc Hargs Hreq Hdb)
    as (h & Hh & Hrun).
  assert (Hit : iterate (arguments_of c) = Some args) by now rewrite Hargs.
  pose proof (@handle_known RT DB address (operation c) (arguments_of c)
                args h w Hh Hit) as Hk.
  cbn zeta in Hk. fold w1 in Hk. rewrite Hrun in Hk.
  cbn [fst snd reply_of name db db_queue logger w1] in Hk.
  rewrite <- app_assoc, app_nil_r in Hk. cbn [app] in Hk.
  rewrite (@round_trip_spec RT DB address self c w _ p (db_queue w) _ _ _
             Hk eq_refl).
  rewrite (client_returns self
             (MkExchange true
                (VStr "OK", if returns_nothing c then VNone else r))
             c p Hc eq_refl eq_refl).
  cbn [incoming snd].
  destruct (returns_nothing c); do 2 eexists; (split; [|split]); reflexivity.
Qed.

End EndToEnd_extras.

(** ** Concrete runs of the further properties *)

Lemma one_store_call_witness :
  db (snd (handle_db_request (RT := Sample.runtime) (DB := Sample.store)
             (Return [VBytes "client-1"; VStr "NEWVER";
                      VList [VStr "foo"; VStr "1.0"; VNone; VStr "binary only"]])
             Sample.worker0)) =
    Sample.MkJournal
      [("add_new_package_version",
        [VStr "foo"; VStr "1.0"; VNone; VStr "binary only"])] None.
Proof.
  exact (@one_store_call Sample.runtime Sample.store (VBytes "client-1")
           "NEWVER"
           (VList [VStr "foo"; VStr "1.0"; VNone; VStr "binary only"])
           [VStr "foo"; VStr "1.0"; VNone; VStr "binary only"]
           "add_new_package_version"
           [VStr "foo"; VStr "1.0"; VNone; VStr "binary only"]
           Sample.worker0 eq_refl eq_refl).
Defined.

Lemma bad_arguments_spare_the_store_witness :
  exists ie,
    handle_db_request (RT := Sample.runtime) (DB := Sample.store)
      (Return [VBytes "client-1"; VStr "NEWPKG"; VList [VStr "foo"]])
      Sample.worker0 =
      (Return tt,
       @MkWorker Sample.store "master.the_oracle_1" (Sample.MkJournal [] None)
         ([] ++
            [Recv (Return [VBytes "client-1"; VStr "NEWPKG";
                           VList [VStr "foo"]]);
             Send (AddrMsg (VBytes "client-1") (VStr "ERROR")
                     (VStr (interp_text (Runtime := Sample.runtime) ie)))])
         ([] ++ [LogError "Error handling db request: %s" (VStr "NEWPKG")])).
Proof.
  apply (@bad_arguments_spare_the_store Sample.runtime Sample.store
           (VBytes "client-1") "NEWPKG" (VList [VStr "foo"]) Sample.worker0).
  - right. right. left. reflexivity.
  - intros args [= <-]. reflexivity.
Defined.

Lemma unparsed_receive_has_no_effect_witness :
  db (snd (handle_db_request (RT := Sample.runtime) (DB := Sample.store)
             (Return [VBytes "client-1"; VStr "NEWPKG"]) Sample.worker0)) =
    db Sample.worker0 /\
  sent (db_queue (snd
    (handle_db_request (RT := Sample.runtime) (DB := Sample.store)
       (Return [VBytes "client-1"; VStr "NEWPKG"]) Sample.worker0))) =
    sent (db_queue Sample.worker0) /\
  name (snd (handle_db_request (RT := Sample.runtime) (DB := Sample.store)
               (Return [VBytes "client-1"; VStr "NEWPKG"]) Sample.worker0)) =
    name Sample.worker0.
Proof.
  apply (@unparsed_receive_has_no_effect Sample.runtime Sample.store
           (Return [VBytes "client-1"; VStr "NEWPKG"]) Sample.worker0).
  intros a m d H. discriminate.
Defined.

Lemma unknown_operation_payload_witness :
  handle_db_request (RT := Sample.runtime) (DB := Sample.store)
    (Return [VBytes "client-1"; VStr "NOSUCHOP"; VList []]) Sample.worker0 =
    (Return tt,
     @MkWorker Sample.store "master.the_oracle_1" (Sample.MkJournal [] None)
       [Recv (Return [VBytes "client-1"; VStr "NOSUCHOP"; VList []]);
        Send (AddrMsg (VBytes "client-1") (VStr "ERROR") (VStr "'NOSUCHOP'"))]
       [LogError "Error handling db request: %s" (VStr "NOSUCHOP")]).
Proof.
  apply (@unknown_operation_payload Sample.runtime Sample.store
           (VBytes "client-1") "NOSUCHOP" (VList []) Sample.worker0).
  intros H. cbn in H. repeat (destruct H as [H|H]; [discriminate|]). exact H.
Defined.

Lemma only_OK_returns_witness :
  writable (MkExchange true (VStr "OK", VBool true)) = true /\
  fst (incoming (MkExchange true (VStr "OK", VBool true))) = VStr "OK".
Proof.
  exact (@only_OK_returns Sample.runtime 0
           (MkExchange true (VStr "OK", VBool true))
           (AddNewPackage (VStr "foo") VNone) Sample.process0 (VBool true)
           eq_refl).
Defined.

Lemma client_frame_witness :
  calls (snd (perform (RT := Sample.runtime) 1
                (MkExchange true (VStr "OK", VList []))
                GetStatistics Sample.process0)) = [] /\
  nth_error (sockets (snd (perform (RT := Sample.runtime) 1
                             (MkExchange true (VStr "OK", VList []))
                             GetStatistics Sample.process0))) 0 = Some [].
Proof.
  destruct (@client_frame Sample.runtime 1
              (MkExchange true (VStr "OK", VList []))
              GetStatistics Sample.process0) as (_ & Hc & Hs & _).
  split.
  - apply Hc. intros build H. discriminate.
  - apply (Hs 0%nat). discriminate.
Defined.

Lemma discarded_results_witness :
  perform (RT := Sample.runtime) 0 (MkExchange true (VStr "OK", VInt 7))
    (SkipPackage (VStr "foo") (VStr "no sources")) Sample.process0 =
    (Return VNone,
     MkProcess None
       [[Send (Msg (VStr "SKIPPKG") (VList [VStr "foo"; VStr "no sources"]));
         Recv (Return [VStr "OK"; VInt 7])]; []] []).
Proof.
  exact (@discarded_results Sample.runtime 0
           (MkExchange true (VStr "OK", VInt 7))
           (SkipPackage (VStr "foo") (VStr "no sources")) Sample.process0
           eq_refl eq_refl eq_refl).
Defined.

Lemma statistics_round_trip_witness :
  exists payload,
    fst (do_getstats (RT := Sample.runtime) (DB := Sample.store) []
           Sample.worker0) = Return payload /\
    fst (get_statistics (RT := Sample.runtime) 0
           (MkExchange true (VStr "OK", payload)) Sample.process0) =
      Return (VNamedTuple "Statistics"
                ["downloads_last_month"; "packages_count"]
                [VInt 100; VInt 500]) /\
    stats_type (snd (get_statistics (RT := Sample.runtime) 0
                       (MkExchange true (VStr "OK", payload))
                       Sample.process0)) =
      Some ["downloads_last_month"; "packages_count"].
Proof.
  apply (@statistics_round_trip Sample.runtime Sample.store 0
           [("downloads_last_month", VInt 100); ("packages_count", VInt 500)]
           Sample.worker0 Sample.process0 []
           (Sample.MkJournal [("get_statistics", [])] None)).
  - repeat constructor; cbn; intuition discriminate.
  - repeat constructor.
  - reflexivity.
  - left. reflexivity.
Defined.

Lemma statistics_unexpected_field_witness :
  exists k',
    get_statistics (RT := Sample.runtime) 0
      (MkExchange true (VStr "OK", VList [VTuple [VStr "builds_count"; VInt 1]]))
      (MkProcess (Some ["packages_count"]) [[]] []) =
      (Raise (interp_exn (RT := Sample.runtime) TypeError
                (UnexpectedKeyword k')),
       exchanged 0
         (MkExchange true
            (VStr "OK", VList [VTuple [VStr "builds_count"; VInt 1]]))
         (Msg (VStr "GETSTATS") VNone)
         (MkProcess (Some ["packages_count"]) [[]] [])) /\
    mem k' ["packages_count"] = false.
Proof.
  apply (@statistics_unexpected_field Sample.runtime 0
           (MkExchange true
              (VStr "OK", VList [VTuple [VStr "builds_count"; VInt 1]]))
           (MkProcess (Some ["packages_count"]) [[]] [])
           ["packages_count"]
           (VList [VTuple [VStr "builds_count"; VInt 1]])
           [(VStr "builds_count", VInt 1)] "builds_count" (VInt 1));
    try reflexivity.
  - intros k' v' [[= <- <-]|[]]. now exists "builds_count".
  - now left.
Defined.

Lemma statistics_missing_field_witness :
  exists missing,
    get_statistics (RT := Sample.runtime) 0
      (MkExchange true (VStr "OK", VList [VTuple [VStr "packages_count"; VInt 1]]))
      (MkProcess (Some ["packages_count"; "builds_count"]) [[]] []) =
      (Raise (interp_exn (RT := Sample.runtime) TypeError
                (MissingArguments missing)),
       exchanged 0
         (MkExchange true
            (VStr "OK", VList [VTuple [VStr "packages_count"; VInt 1]]))
         (Msg (VStr "GETSTATS") VNone)
         (MkProcess (Some ["packages_count"; "builds_count"]) [[]] [])) /\
    In "builds_count" missing.
Proof.
  apply (@statistics_missing_field Sample.runtime 0
           (MkExchange true
              (VStr "OK", VList [VTuple [VStr "packages_count"; VInt 1]]))
           (MkProcess (Some ["packages_count"; "builds_count"]) [[]] [])
           ["packages_count"; "builds_count"]
           (VList [VTuple [VStr "packages_count"; VInt 1]])
           [(VStr "packages_count", VInt 1)] "builds_count");
    try reflexivity.
  - intros k v [[= <- <-]|[]]. now exists "packages_count".
  - right. now left.
  - intros v [H|[]]. discriminate.
Defined.


Lemma round_trip_result_witness :
  exists w' p',
    round_trip (RT := Sample.runtime) (DB := Sample.store)
      (VBytes "client-1") 0
      (DeleteBuild (VStr "foo") (VStr "1.0"))
      Sample.worker0 Sample.process0 =
      Some ((Return VNone, p'), (Return tt, w')) /\
    db w' = Sample.MkJournal
              [("delete_build", [VStr "foo"; VStr "1.0"])] None /\
    logger w' = logger Sample.worker0.
Proof.
  exact (@round_trip_result Sample.runtime Sample.store
           (VBytes "client-1") 0 (DeleteBuild (VStr "foo") (VStr "1.0"))
           [VStr "foo"; VStr "1.0"] "delete_build" [VStr "foo"; VStr "1.0"]
           VNone [VStr "foo"; VStr "1.0"]
           (Sample.MkJournal [("delete_build", [VStr "foo"; VStr "1.0"])] None)
           Sample.worker0 Sample.process0 eq_refl eq_refl eq_refl eq_refl).
Defined.

(** ** The shape of the statistics *)

Section Statistics_shape.
Context {RT : Runtime}.

Lemma collect_some (d : list (string * value)) (fields : list string) :
  (forall f, In f fields -> assoc f d <> None) ->
  exists vals, collect d fields = Some vals.
Proof.
  induction fields as [|f fields IH]; intros H; cbn; [now exists []|].
  destruct (assoc f d) as [v|] eqn:E; [|exfalso; apply (H f); [now left|exact E]].
  destruct IH as [vs Hvs]; [intros f' Hin; apply H; now right|].
  rewrite Hvs. now exists (v :: vs).
Qed.

Lemma verdict_carries (t : exchange) (fields : list (string * value)) :
  carries t fields ->
  verdict t = Return (snd (incoming t)) /\
  pairs_of (snd (incoming t)) = Return (row fields) /\
  NoDup (map fst fields).
Proof.
  intros (Hw & Hok & Hp & Hnd). unfold verdict. rewrite Hw, Hok. auto.
Qed.

(** The first call: the class is built from the names of the reply and the
    structure is returned. *)
Lemma first_call_returns (self : nat) (t : exchange)
  (fields : list (string * value)) (p : process) :
  stats_type p = None ->
  carries t fields ->
  field_names_ok (map fst fields) ->
  fst (get_statistics self t p) =
    Return (VNamedTuple "Statistics" (map fst fields) (map snd fields)) /\
  stats_type (snd (get_statistics self t p)) = Some (map fst fields).
Proof.
  intros Hst Hc Hok. destruct (verdict_carries Hc) as (Hv & Hp & Hnd).
  rewrite (get_statistics_fresh self t p Hst). cbn zeta.
  rewrite Hv, Hp, (@namedtuple_row RT fields Hnd Hok).
  rewrite (@kwargs_row RT fields Hnd), (@construct_row RT fields Hnd).
  split; reflexivity.
Qed.

(** A later call answered with the same names, in any order: the structure
    of the class is returned, with the values of this reply. *)
Lemma later_call_returns (self : nat) (t : exchange)
  (fields : list (string * value)) (names : list string) (p : process) :
  stats_type p = Some names ->
  carries t fields ->
  (forall f, In f (map fst fields) <-> In f names) ->
  exists s,
    fst (get_statistics self t p) = Return s /\
    shaped names s /\
    (forall f v, In (f, v) fields -> getattr s f = Return v).
Proof.
  intros Hst Hc Hsame. destruct (verdict_carries Hc) as (Hv & Hp & Hnd).
  rewrite (get_statistics_pinned self t p Hst). cbn [fst].
  rewrite Hv, (keyword_dict_eq _ Hp), (@kwargs_row RT fields Hnd).
  assert (Hcon : exists s, construct names fields = Return s).
  { unfold construct.
    destruct (find _ fields) as [kv|] eqn:E.
    - apply find_some in E. destruct E as [Hin Hm]. exfalso.
      assert (Hk : mem (fst kv) names = true).
      { apply mem_In, Hsame. now apply in_map. }
      rewrite Hk in Hm. discriminate.
    - destruct (collect_some fields names) as [vals Hvals].
      + intros f Hf. apply Hsame in Hf. apply in_map_iff in Hf.
        destruct Hf as ([f' v] & <- & Hin). now apply assoc_of_In with v.
      + rewrite Hvals. eauto. }
  destruct Hcon as [s Hs]. exists s. split; [exact Hs|].
  destruct (construct_spec _ _ Hs) as [Hshape Hget]. split; [exact Hshape|].
  intros f v Hin. apply Hget. now apply assoc_NoDup.
Qed.

Lemma later_calls (cs : list (nat * exchange)) (names : list string) :
  forall p, stats_type p = Some names ->
    stats_type (snd (get_statistics_seq cs p)) = Some names /\
    Forall2
      (fun c r =>
         (forall s, r = Return s ->
            shaped names s /\ maps_fields s (snd (incoming (snd c)))) /\
         (forall fields,
            carries (snd c) fields ->
            (forall f, In f (map fst fields) <-> In f names) ->
            exists s, r = Return s /\ shaped names s /\
                      forall f v, In (f, v) fields -> getattr s f = Return v))
      cs (fst (get_statistics_seq cs p)).
Proof.
  induction cs as [|[self t] cs IH]; intros p H; cbn.
  - split; [exact H|constructor].
  - destruct (pinned_step self t p H) as [H1 Hs].
    pose proof (fun fields => @later_call_returns self t fields names p H)
      as Hret.
    destruct (get_statistics self t p) as [r p1]. cbn in H1, Hs, Hret.
    destruct (IH p1 H1) as [H2 Hall].
    destruct (get_statistics_seq cs p1) as [rs p2]. cbn in *.
    split; [exact H2|]. constructor; [|exact Hall]. split.
    + intros s ->. now apply Hs.
    + intros fields Hc Hsame. now apply (Hret fields).
Qed.

(** C6. The class of the statistics structure is built by the first call,
    from the field names of its reply, and that call returns the structure
    with the fields and values of the reply.  The class then stays: it is
    an attribute of the class [DbClient], so whichever instances make the
    later calls and whatever they are answered, it keeps these fields;
    every later call that is answered with these names returns an instance
    of that class holding, under each name, the value of its own reply,
    and no call returns a structure of any other shape. *)
Theorem statistics_shape (self : nat) (t : exchange)
  (fields : list (string * value)) (cs : list (nat * exchange))
  (p : process) :
  stats_type p = None ->
  carries t fields ->
  field_names_ok (map fst fields) ->
  fst (get_statistics self t p) =
    Return (VNamedTuple "Statistics" (map fst fields) (map snd fields)) /\
  stats_type (snd (get_statistics self t p)) = Some (map fst fields) /\
  stats_type (snd (get_statistics_seq cs (snd (get_statistics self t p))))
    = Some (map fst fields) /\
  Forall2
    (fun c r =>
       (forall s, r = Return s ->
          shaped (map fst fields) s /\
          maps_fields s (snd (incoming (snd c)))) /\
       (forall fields',
          carries (snd c) fields' ->
          (forall f, In f (map fst fields') <-> In f (map fst fields)) ->
          exists s, r = Return s /\ shaped (map fst fields) s /\
                    forall f v, In (f, v) fields' -> getattr s f = Return v))
    cs (fst (get_statistics_seq cs (snd (get_statistics self t p)))).
Proof.
  intros Hst Hc Hok.
  destruct (first_call_returns self p Hst Hc Hok) as [Hfirst Hset].
  destruct (later_calls cs _ Hset) as [Hlater Hall].
  repeat split; assumption.
Qed.

End Statistics_shape.

(** Two instances ask for the statistics; the second is answered with
    other values, in another order. *)
Lemma statistics_shape_witness :
  fst (get_statistics (RT := Sample.runtime) 0
         (MkExchange true
            (VStr "OK",
             VList [VTuple [VStr "downloads_last_month"; VInt 100];
                    VTuple [VStr "packages_count"; VInt 500]]))
         Sample.process0) =
    Return (VNamedTuple "Statistics"
              ["downloads_last_month"; "packages_count"]
              [VInt 100; VInt 500]) /\
  exists s,
    fst (get_statistics_seq (RT := Sample.runtime)
           [(1%nat,
             MkExchange true
               (VStr "OK",
                VList [VTuple [VStr "packages_count"; VInt 501];
                       VTuple [VStr "downloads_last_month"; VInt 120]]))]
           (snd (get_statistics (RT := Sample.runtime) 0
                   (MkExchange true
                      (VStr "OK",
                       VList [VTuple [VStr "downloads_last_month"; VInt 100];
                              VTuple [VStr "packages_count"; VInt 500]]))
                   Sample.process0))) = [Return s] /\
    shaped ["downloads_last_month"; "packages_count"] s /\
    getattr (RT := Sample.runtime) s "downloads_last_month"
      = Return (VInt 120) /\
    getattr (RT := Sample.runtime) s "packages_count" = Return (VInt 501).
Proof.
  assert (Hnd : forall a b : value,
             NoDup (map fst [("downloads_last_month", a);
                             ("packages_count", b)])).
  { intros a b. repeat constructor; cbn; intuition discriminate. }
  assert (Hnd' : forall a b : value,
             NoDup (map fst [("packages_count", a);
                             ("downloads_last_month", b)])).
  { intros a b. repeat constructor; cbn; intuition discriminate. }
  destruct (@statistics_shape Sample.runtime 0
              (MkExchange true
                 (VStr "OK",
                  VList [VTuple [VStr "downloads_last_month"; VInt 100];
                         VTuple [VStr "packages_count"; VInt 500]]))
              [("downloads_last_month", VInt 100);
               ("packages_count", VInt 500)]
              [(1%nat,
                MkExchange true
                  (VStr "OK",
                   VList [VTuple [VStr "packages_count"; VInt 501];
                          VTuple [VStr "downloads_last_month"; VInt 120]]))]
              Sample.process0 eq_refl
              (conj eq_refl (conj eq_refl (conj eq_refl (Hnd _ _))))
              ltac:(repeat constructor))
    as (Hfirst & _ & _ & Hall).
  split; [exact Hfirst|].
  match type of Hall with
  | Forall2 _ _ ?L => remember L as results eqn:HL
  end.
  inversion Hall as [|c r cs rs [_ Hret] Hrest Hc Hres]. subst c cs.
  inversion Hrest as [Hnil Hrs|]. subst rs.
  destruct (Hret [("packages_count", VInt 501);
                  ("downloads_last_month", VInt 120)])
    as (s & Hr & Hshape & Hget).
  - exact (conj eq_refl (conj eq_refl (conj eq_refl (Hnd' _ _)))).
  - intros f. cbn. tauto.
  - exists s. split; [congruence|]. repeat split.
    + exact Hshape.
    + apply Hget. right. now left.
    + apply Hget. now left.
Defined.

(** ** Descriptions of exceptions

    [str(exc)] for the classes that have a [__str__] of their own. *)

Example str_of_oserror :
  str_exn (RT := Sample.runtime)
    (MkExn IOError [VInt 111; VStr "Connection refused"]) =
    "[Errno 111] Connection refused".
Proof. reflexivity. Qed.

Example str_of_oserror_with_filename :
  str_exn (RT := Sample.runtime)
    (MkExn (UserDefined "FileNotFoundError" IOError)
       [VInt 2; VStr "No such file or directory"; VStr "foo.whl"]) =
    "[Errno 2] No such file or directory: 'foo.whl'".
Proof. reflexivity. Qed.

Example str_of_oserror_one_argument :
  str_exn (RT := Sample.runtime) (MkExn IOError [VStr "duplicate build"]) =
    "duplicate build".
Proof. reflexivity. Qed.

Example str_of_overriding_class :
  str_exn (RT := Sample.runtime)
    (MkExn (Overriding "DBAPIError" Exception_
              (fun args => ("(db) " ++ base_str (RT := Sample.runtime)
                                         (firstn 1 args))%string))
       [VStr "connection lost"; VInt 7]) =
    "(db) connection lost".
Proof. reflexivity. Qed.

(** A store that fails with an [OSError] made of errno and strerror: the
    payload of the reply is the text that [OSError.__str__] gives. *)
Example oserror_payload :
  sent (db_queue (snd
    (handle_db_request (RT := Sample.runtime) (DB := Sample.store)
       (Return [VBytes "client-1"; VStr "GETPYPI"; VList []])
       (@MkWorker Sample.store "master.the_oracle_1"
          (Sample.MkJournal []
             (Some (MkExn IOError [VInt 111; VStr "Connection refused"])))
          [] [])))) =
    [AddrMsg (VBytes "client-1") (VStr "ERROR")
       (VStr "[Errno 111] Connection refused")].
Proof. reflexivity. Qed.
